(** * defi-monitor: the alerting engine and the CoinGecko fetch layer

    A shallow embedding of [src/alerts.py] (class [AlertManager]: the
    threshold Detector [check_alerts] with its three metric checks, and the
    Dispatcher [send_alerts] with its console, Discord webhook and email
    channels) and of [src/coingecko.py] ([CoinGeckoAPI._make_request]).

    Modelling conventions.
    - Python numbers (the JSON numbers the two REST APIs return, and the
      thresholds of the configuration) are exact rationals [Q] in the
      embedding of the Detector, the Dispatcher and the fetch layers, which
      serves the properties that do not depend on rounding.  The three
      metric checks are embedded a second time in [Module Binary64], over
      IEEE 754 binary64 numbers with their rounding, for the properties
      that are about the value of a delta.
    - A snapshot is the dict built by [DataFetcher.fetch_protocol_data]; the
      Detector reads four of its keys.  A metric key holds a number or
      [None] (or is missing, which [dict.get] does not distinguish): an
      [option Q].  The ['name'] key holds a string or is missing: an
      [option string], where [None] means that [protocol_data['name']]
      raises [KeyError].
    - Python exceptions are values of [PyExc]; code that may raise runs in
      the state-and-exception monad [M S], in which the state reached when
      an exception is raised is kept (mutations are not rolled back).
    - [self.previous_data] is a [gmap string Snapshot].  [check_alerts]
      never mutates a snapshot, so a snapshot is modelled by its value. *)

From Stdlib Require Import QArith Qabs Lqa SpecFloat.
From stdpp Require Import base option list strings gmap.

(** ** Exceptions and the state-and-exception monad *)

Inductive PyExc : Type :=
  | KeyError (key : string)
  | ZeroDivisionError
  | RequestException          (* requests.exceptions.RequestException, raised by get/post *)
  | HTTPError (status : Z)    (* subclass of RequestException, raised by raise_for_status *)
  | SMTPException
  | RecursionError.

Inductive Result (A : Type) : Type :=
  | Ok (a : A)
  | Raise (e : PyExc).
Arguments Ok {A} a.
Arguments Raise {A} e.

Definition M (S A : Type) : Type := S → S * Result A.

Definition ret {S A} (a : A) : M S A := λ s, (s, Ok a).
Definition raise {S A} (e : PyExc) : M S A := λ s, (s, Raise e).
Definition bind {S A B} (m : M S A) (k : A → M S B) : M S B :=
  λ s, match m s with
       | (s', Ok a) => k a s'
       | (s', Raise e) => (s', Raise e)
       end.
Definition get {S} : M S S := λ s, (s, Ok s).
Definition modify {S} (f : S → S) : M S unit := λ s, (f s, Ok tt).
Definition lift {S A} (r : Result A) : M S A := λ s, (s, r).

(** [try: body / except Exception as e: handler e] *)
Definition try_except {S A} (body : M S A) (handler : PyExc → M S A) : M S A :=
  λ s, match body s with
       | (s', Ok a) => (s', Ok a)
       | (s', Raise e) => handler e s'
       end.

Declare Scope py_scope.
Delimit Scope py_scope with py.
Notation "x <- m ;; k" := (bind m (λ x, k))
  (at level 100, m at next level, right associativity) : py_scope.
Notation "m ;;; k" := (bind m (λ _, k))
  (at level 100, right associativity) : py_scope.
Local Open Scope py_scope.

(** [for x in xs: acc = body x acc], the accumulator standing for the local
    variables the loop body updates. *)
Fixpoint for_each {S A B} (xs : list A) (body : A → B → M S B) (acc : B) : M S B :=
  match xs with
  | [] => ret acc
  | x :: xs' => acc' <- body x acc ;; for_each xs' body acc'
  end.

(** ** Python numbers *)

(** Truth value of [d.get(key)]: [None] and [0] are false. *)
Definition truthy (v : option Q) : bool :=
  match v with
  | Some x => negb (Qeq_bool x 0)
  | None => false
  end.

(** [d[key]] on a metric key. *)
Definition getitem (key : string) (v : option Q) : Result Q :=
  match v with
  | Some x => Ok x
  | None => Raise (KeyError key)
  end.

(** [a / b] *)
Definition truediv (a b : Q) : Result Q :=
  if Qeq_bool b 0 then Raise ZeroDivisionError else Ok (a / b)%Q.

(** [a >= b], [a > b] and [a < b] *)
Definition ge (a b : Q) : bool := Qle_bool b a.
Definition gt (a b : Q) : bool := negb (Qle_bool a b).
Definition lt (a b : Q) : bool := negb (Qle_bool b a).

(** ** Data model *)

Record Snapshot : Type := {
  name : option string;
  price : option Q;
  tvl : option Q;
  apy : option Q
}.

Inductive AlertType : Type := type_price | type_tvl | type_apy.
Inductive Severity : Type := HIGH | MEDIUM.
Inductive Direction : Type := INCREASED | DECREASED.

(** The f-string of an alert, before formatting: direction, [abs(change)],
    previous value, current value. *)
Record Message : Type := {
  direction : Direction;
  magnitude : Q;
  previous : Q;
  current : Q
}.

Definition Timestamp : Type := Z.

Record Alert : Type := {
  alert_type : AlertType;
  protocol : string;
  severity : Severity;
  message : Message;
  timestamp : Timestamp
}.

(** [config['alerts']]: every key may be missing. *)
Record AlertsConfig : Type := {
  cfg_enabled : option bool;
  cfg_price_change_threshold : option Q;
  cfg_tvl_change_threshold : option Q;
  cfg_apy_change_threshold : option Q;
  cfg_console : option bool;
  cfg_discord_webhook : option bool;
  cfg_email : option bool;
  cfg_smtp_server : option string;
  cfg_smtp_port : option Z
}.

Definition empty_config : AlertsConfig :=
  {| cfg_enabled := None; cfg_price_change_threshold := None;
     cfg_tvl_change_threshold := None; cfg_apy_change_threshold := None;
     cfg_console := None; cfg_discord_webhook := None; cfg_email := None;
     cfg_smtp_server := None; cfg_smtp_port := None |}.

(** The environment variables [__init__] reads. *)
Record Environ : Type := {
  DISCORD_WEBHOOK_URL : option string;
  ALERT_EMAIL : option string;
  ALERT_EMAIL_FROM : option string;
  SMTP_USERNAME : option string;
  SMTP_PASSWORD : option string
}.

Record AlertManager : Type := {
  alerts_config : AlertsConfig;
  enabled : bool;
  discord_webhook_url : string;
  email_to : string;
  email_from : string;
  smtp_username : string;
  smtp_password : string;
  price_threshold : Q;
  tvl_threshold : Q;
  apy_threshold : Q;
  previous_data : gmap string Snapshot
}.

Definition set_previous_data (f : gmap string Snapshot → gmap string Snapshot)
    (self : AlertManager) : AlertManager :=
  {| alerts_config := alerts_config self;
     enabled := enabled self;
     discord_webhook_url := discord_webhook_url self;
     email_to := email_to self;
     email_from := email_from self;
     smtp_username := smtp_username self;
     smtp_password := smtp_password self;
     price_threshold := price_threshold self;
     tvl_threshold := tvl_threshold self;
     apy_threshold := apy_threshold self;
     previous_data := f (previous_data self) |}.

(** [AlertManager.__init__]: [config.get('alerts', {})] is [None] when the
    key is missing. *)
Definition __init__ (alerts : option AlertsConfig) (env : Environ) : AlertManager :=
  let alerts_config := default empty_config alerts in
  {| alerts_config := alerts_config;
     enabled := default false (cfg_enabled alerts_config);
     discord_webhook_url := default "" (DISCORD_WEBHOOK_URL env);
     email_to := default "" (ALERT_EMAIL env);
     email_from := default "" (ALERT_EMAIL_FROM env);
     smtp_username := default "" (SMTP_USERNAME env);
     smtp_password := default "" (SMTP_PASSWORD env);
     price_threshold := default 5.0%Q (cfg_price_change_threshold alerts_config);
     tvl_threshold := default 10.0%Q (cfg_tvl_change_threshold alerts_config);
     apy_threshold := default 1.0%Q (cfg_apy_change_threshold alerts_config);
     previous_data := ∅ |}.

(** ** The Threshold Detector *)

Section Detector.

(** The value [datetime.now()] returns while the call runs. *)
Variable now : Timestamp.

Definition _check_price_change (self : AlertManager) (name : string)
    (prev curr : Snapshot) : Result (option Alert) :=
  if truthy (price prev) && truthy (price curr) then
    match getitem "price" (price curr), getitem "price" (price prev) with
    | Ok c, Ok p =>
        match truediv (c - p) p with
        | Ok q =>
            let change_percent := (q * 100)%Q in
            if ge (Qabs change_percent) (price_threshold self) then
              Ok (Some
                {| alert_type := type_price;
                   protocol := name;
                   severity := if ge (Qabs change_percent) 10 then HIGH else MEDIUM;
                   message :=
                     {| direction := if gt change_percent 0 then INCREASED else DECREASED;
                        magnitude := Qabs change_percent;
                        previous := p;
                        current := c |};
                   timestamp := now |})
            else Ok None
        | Raise e => Raise e
        end
    | Raise e, _ => Raise e
    | _, Raise e => Raise e
    end
  else Ok None.

Definition _check_tvl_change (self : AlertManager) (name : string)
    (prev curr : Snapshot) : Result (option Alert) :=
  if truthy (tvl prev) && truthy (tvl curr) then
    match getitem "tvl" (tvl curr), getitem "tvl" (tvl prev) with
    | Ok c, Ok p =>
        match truediv (c - p) p with
        | Ok q =>
            let change_percent := (q * 100)%Q in
            if ge (Qabs change_percent) (tvl_threshold self) then
              Ok (Some
                {| alert_type := type_tvl;
                   protocol := name;
                   severity := if ge (Qabs change_percent) 20 then HIGH else MEDIUM;
                   message :=
                     {| direction := if gt change_percent 0 then INCREASED else DECREASED;
                        magnitude := Qabs change_percent;
                        previous := p;
                        current := c |};
                   timestamp := now |})
            else Ok None
        | Raise e => Raise e
        end
    | Raise e, _ => Raise e
    | _, Raise e => Raise e
    end
  else Ok None.

Definition _check_apy_change (self : AlertManager) (name : string)
    (prev curr : Snapshot) : Result (option Alert) :=
  if truthy (apy prev) && truthy (apy curr) then
    match getitem "apy" (apy curr), getitem "apy" (apy prev) with
    | Ok c, Ok p =>
        let change := (c - p)%Q in
        if ge (Qabs change) (apy_threshold self) then
          Ok (Some
            {| alert_type := type_apy;
               protocol := name;
               severity := MEDIUM;
               message :=
                 {| direction := if gt change 0 then INCREASED else DECREASED;
                    magnitude := Qabs change;
                    previous := p;
                    current := c |};
               timestamp := now |})
        else Ok None
    | Raise e, _ => Raise e
    | _, Raise e => Raise e
    end
  else Ok None.

(** [protocol_data['name']] *)
Definition getitem_name (protocol_data : Snapshot) : Result string :=
  match name protocol_data with
  | Some n => Ok n
  | None => Raise (KeyError "name")
  end.

(** [if alert: alerts.append(alert)] *)
Definition append_if (alerts : list Alert) (alert : option Alert) : list Alert :=
  match alert with
  | Some a => alerts ++ [a]
  | None => alerts
  end.

(** Body of the first loop of [check_alerts]. *)
Definition check_protocol (protocol_data : Snapshot) (alerts : list Alert)
    : M AlertManager (list Alert) :=
  protocol_name <- lift (getitem_name protocol_data) ;;
  self <- get ;;
  match previous_data self !! protocol_name with
  | None =>
      modify (set_previous_data <[protocol_name := protocol_data]>) ;;;
      ret alerts
  | Some prev_data =>
      alert <- lift (_check_price_change self protocol_name prev_data protocol_data) ;;
      let alerts := append_if alerts alert in
      alert <- lift (_check_tvl_change self protocol_name prev_data protocol_data) ;;
      let alerts := append_if alerts alert in
      alert <- lift (_check_apy_change self protocol_name prev_data protocol_data) ;;
      let alerts := append_if alerts alert in
      ret alerts
  end.

(** Body of the second loop of [check_alerts]. *)
Definition update_previous (protocol_data : Snapshot) (_ : unit)
    : M AlertManager unit :=
  protocol_name <- lift (getitem_name protocol_data) ;;
  modify (set_previous_data <[protocol_name := protocol_data]>).

Definition check_alerts (current_data : list Snapshot)
    : M AlertManager (list Alert) :=
  self <- get ;;
  if negb (enabled self) then ret []
  else
    alerts <- for_each current_data check_protocol [] ;;
    for_each current_data update_previous tt ;;;
    ret alerts.

End Detector.

(** ** The Alert Dispatcher *)

(** [str.upper] on the ASCII letters. *)
Definition upper_ascii (c : Ascii.ascii) : Ascii.ascii :=
  let n := Ascii.nat_of_ascii c in
  if (97 <=? n)%nat && (n <=? 122)%nat then Ascii.ascii_of_nat (n - 32) else c.

Fixpoint upper (s : string) : string :=
  match s with
  | EmptyString => EmptyString
  | String c s' => String (upper_ascii c) (upper s')
  end.

(** Truth value of a string: the empty string is false. *)
Definition nonempty (s : string) : bool := negb (String.eqb s "").

(** The JSON payload of one webhook call. *)
Record Embed : Type := {
  embed_title : string;
  embed_description : Message;
  embed_color : Z;
  embed_type : AlertType;
  embed_severity : Severity;
  embed_time : Timestamp
}.

Record Mail : Type := {
  mail_from : string;
  mail_to : string;
  mail_subject : Timestamp;
  mail_body : list Alert;
  mail_server : string;
  mail_port : Z
}.

(** What [print] writes. *)
Inductive Line : Type :=
  | line_banner
  | line_alert (a : Alert)
  | line_footer
  | line_discord_error (e : PyExc)
  | line_email_warn
  | line_email_info
  | line_email_error (e : PyExc).

(** The outside world of the Dispatcher: the console, the webhook calls
    attempted and the mails handed to the SMTP server, oldest first. *)
Record World : Type := {
  stdout : list Line;
  webhook_posts : list Embed;
  smtp_sent : list Mail
}.

(** Outcome of one [requests.post]: a response with its status code, or an
    exception (connection error, timeout). *)
Inductive PostOutcome : Type :=
  | Response (status_code : Z)
  | PostRaises.

Inductive SmtpStep : Type := smtp_connect | smtp_starttls | smtp_login | smtp_send_message.

(** [response.raise_for_status()] *)
Definition raise_for_status (status_code : Z) : Result unit :=
  if (400 <=? status_code)%Z && (status_code <? 600)%Z
  then Raise (HTTPError status_code) else Ok tt.

Section Dispatcher.

Variable now : Timestamp.

(** The webhook endpoint: the outcome of the [k]-th call attempted. *)
Variable webhook : nat → Embed → PostOutcome.

(** The mail transport: the first step of the SMTP session that raises,
    if one does. *)
Variable smtp_failure : Mail → option SmtpStep.

Definition print (l : Line) : M World unit :=
  modify (λ w, {| stdout := stdout w ++ [l];
                  webhook_posts := webhook_posts w;
                  smtp_sent := smtp_sent w |}).

Definition _send_console_alerts (alerts : list Alert) : M World bool :=
  print line_banner ;;;
  for_each alerts (λ alert _, print (line_alert alert)) tt ;;;
  print line_footer ;;;
  ret true.

Definition make_embed (alert : Alert) : Embed :=
  {| embed_title := upper (protocol alert);
     embed_description := message alert;
     embed_color := match severity alert with HIGH => 0xff0000 | MEDIUM => 0xffff00 end;
     embed_type := alert_type alert;
     embed_severity := severity alert;
     embed_time := timestamp alert |}.

(** [requests.post(url, json={"embeds": [embed]}, timeout=10)] *)
Definition requests_post (embed : Embed) : M World Z :=
  λ w,
    let w' := {| stdout := stdout w;
                 webhook_posts := webhook_posts w ++ [embed];
                 smtp_sent := smtp_sent w |} in
    match webhook (length (webhook_posts w)) embed with
    | Response status_code => (w', Ok status_code)
    | PostRaises => (w', Raise RequestException)
    end.

(** Body of the loop of [_send_discord_alerts]. *)
Definition post_alert (alert : Alert) (_ : unit) : M World unit :=
  let embed := make_embed alert in
  response <- requests_post embed ;;
  lift (raise_for_status response).

Definition _send_discord_alerts (self : AlertManager) (alerts : list Alert)
    : M World bool :=
  try_except
    (for_each alerts post_alert tt ;;;
     ret true)
    (λ e, print (line_discord_error e) ;;; ret false).

(** [with smtplib.SMTP(...) as server: starttls; login; send_message] *)
Definition smtp_session (msg : Mail) : M World unit :=
  λ w,
    match smtp_failure msg with
    | Some _ => (w, Raise SMTPException)
    | None => ({| stdout := stdout w;
                  webhook_posts := webhook_posts w;
                  smtp_sent := smtp_sent w ++ [msg] |}, Ok tt)
    end.

Definition make_mail (self : AlertManager) (alerts : list Alert) : Mail :=
  {| mail_from := email_from self;
     mail_to := email_to self;
     mail_subject := now;
     mail_body := alerts;
     mail_server := default "smtp.gmail.com" (cfg_smtp_server (alerts_config self));
     mail_port := default 587%Z (cfg_smtp_port (alerts_config self)) |}.

Definition _send_email_alerts (self : AlertManager) (alerts : list Alert)
    : M World bool :=
  try_except
    (if negb (nonempty (email_to self) && nonempty (email_from self)
              && nonempty (smtp_username self) && nonempty (smtp_password self))
     then print line_email_warn ;;; ret false
     else
       smtp_session (make_mail self alerts) ;;;
       print line_email_info ;;;
       ret true)
    (λ e, print (line_email_error e) ;;; ret false).

Definition send_alerts (self : AlertManager) (alerts : list Alert) : M World nat :=
  match alerts with
  | [] => ret 0%nat
  | _ =>
      let count := 0%nat in
      count <-
        (if default true (cfg_console (alerts_config self)) then
           _send_console_alerts alerts ;;;
           ret (count + length alerts)%nat
         else ret count) ;;
      count <-
        (if default false (cfg_discord_webhook (alerts_config self))
            && nonempty (discord_webhook_url self) then
           sent <- _send_discord_alerts self alerts ;;
           ret (if sent : bool then count + length alerts else count)%nat
         else ret count) ;;
      count <-
        (if default false (cfg_email (alerts_config self))
            && nonempty (email_to self) then
           sent <- _send_email_alerts self alerts ;;
           ret (if sent : bool then count + length alerts else count)%nat
         else ret count) ;;
      ret count
  end.

End Dispatcher.

(** ** The CoinGecko fetch layer *)

Module CoinGecko.

Record CoinGeckoAPI : Type := {
  base_url : string;
  api_key : string;
  rate_limit : Q;
  last_request_time : Q;
  min_request_interval : Q
}.

(** [CoinGeckoAPI.__init__]; the division raises when the configured
    rate limit is 0. *)
Definition __init__ (cfg_base_url cfg_api_key : option string)
    (cfg_rate_limit : option Q) : Result CoinGeckoAPI :=
  let rate_limit := default 30%Q cfg_rate_limit in
  match truediv 60 rate_limit with
  | Ok interval =>
      Ok {| base_url := default "https://api.coingecko.com/api/v3" cfg_base_url;
            api_key := default "" cfg_api_key;
            rate_limit := rate_limit;
            last_request_time := 0;
            min_request_interval := interval |}
  | Raise e => Raise e
  end.

Inductive Event : Type :=
  | ev_sleep (seconds : Q)
  | ev_get (url : string)
  | ev_warn_rate_limit
  | ev_error (e : PyExc).

(** The client object together with the outside world it acts on: the
    wall clock, the number of GET requests sent so far and the trace of
    what the calls did, oldest first. *)
Record State : Type := {
  self : CoinGeckoAPI;
  clock : Q;
  requests_sent : nat;
  trace : list Event
}.

(** Outcome of one [session.get]: a response (status code and decoded
    body), or an exception of the [requests] library. *)
Inductive GetOutcome (Json : Type) : Type :=
  | GetResponse (status_code : Z) (body : Json)
  | GetRaises.
Arguments GetResponse {Json} status_code body.
Arguments GetRaises {Json}.

Definition log (e : Event) : M State unit :=
  modify (λ s, {| self := self s; clock := clock s;
                  requests_sent := requests_sent s;
                  trace := trace s ++ [e] |}).

(** [time.time()] *)
Definition time_time : M State Q := λ s, (s, Ok (clock s)).

(** [time.sleep(seconds)] *)
Definition time_sleep (seconds : Q) : M State unit :=
  modify (λ s, {| self := self s; clock := (clock s + seconds)%Q;
                  requests_sent := requests_sent s;
                  trace := trace s ++ [ev_sleep seconds] |}).

Definition set_last_request_time (t : Q) : M State unit :=
  modify (λ s, {| self := {| base_url := base_url (self s);
                             api_key := api_key (self s);
                             rate_limit := rate_limit (self s);
                             last_request_time := t;
                             min_request_interval := min_request_interval (self s) |};
                  clock := clock s;
                  requests_sent := requests_sent s;
                  trace := trace s |}).

(** [except requests.exceptions.RequestException as e]: the handler runs
    for [RequestException] and its subclass [HTTPError] only. *)
Definition is_RequestException (e : PyExc) : bool :=
  match e with
  | RequestException | HTTPError _ => true
  | _ => false
  end.

Definition try_except_RequestException {A} (body : M State A)
    (handler : PyExc → M State A) : M State A :=
  λ s, match body s with
       | (s', Ok a) => (s', Ok a)
       | (s', Raise e) =>
           if is_RequestException e then handler e s' else (s', Raise e)
       end.

Section Upstream.

Variable Json : Type.

(** The upstream API: the outcome of the [k]-th GET request sent, and
    the time that request takes. *)
Variable upstream : nat → string → GetOutcome Json.
Variable latency : nat → Q.

(** [self.session.get(url, timeout=30)]; the response carries its body
    as [response.json()] decodes it. *)
Definition session_get (url : string) : M State (Z * Json) :=
  λ s,
    let k := requests_sent s in
    let s' := {| self := self s; clock := (clock s + latency k)%Q;
                 requests_sent := S k;
                 trace := trace s ++ [ev_get url] |} in
    match upstream k url with
    | GetResponse status_code body => (s', Ok (status_code, body))
    | GetRaises => (s', Raise RequestException)
    end.

(** [_make_request]; [frames] is the number of nested calls the
    interpreter still allows, and a call beyond it raises
    [RecursionError]. *)
Fixpoint _make_request (frames : nat) (endpoint : string)
    : M State (option Json) :=
  match frames with
  | O => raise RecursionError
  | S frames' =>
      current_time <- time_time ;;
      s <- get ;;
      let time_since_last := (current_time - last_request_time (self s))%Q in
      (if lt time_since_last (min_request_interval (self s))
       then time_sleep (min_request_interval (self s) - time_since_last)
       else ret tt) ;;;
      let url := base_url (self s) +:+ endpoint in
      try_except_RequestException
        (response <- session_get url ;;
         t <- time_time ;;
         set_last_request_time t ;;;
         if (fst response =? 429)%Z then
           log ev_warn_rate_limit ;;;
           time_sleep 60 ;;;
           _make_request frames' endpoint
         else
           lift (raise_for_status (fst response)) ;;;
           ret (Some (snd response)))
        (λ e, log (ev_error e) ;;; ret None)
  end.

End Upstream.

(** Number of rate-limit warnings (one is printed for every 429 response,
    before the cooldown) and of GET requests in a trace. *)
Definition is_cooldown (e : Event) : bool :=
  match e with ev_warn_rate_limit => true | _ => false end.

Definition is_get (e : Event) : bool :=
  match e with ev_get _ => true | _ => false end.

Definition cooldowns (tr : list Event) : nat :=
  length (List.filter is_cooldown tr).

Definition gets (tr : list Event) : nat :=
  length (List.filter is_get tr).

(** The dict [get_token_price] returns. *)
Record TokenPrice : Type := {
  token_price : option Q;
  token_change_24h : option Q;
  token_market_cap : option Q
}.

Section Price.

(** The body of a [/simple/price] response is an object that maps a coin
    id to an object of numbers: a [gmap string (gmap string Q)].  A key
    that is missing and a key that holds [null] are one case, [dict.get]
    answers [None] for both. *)
Variable upstream : nat → string → GetOutcome (gmap string (gmap string Q)).
Variable latency : nat → Q.

(** The nested calls the interpreter allows to [_make_request]. *)
Variable frames : nat.

Definition get_token_price (coin_id vs_currency : string)
    : M State (option TokenPrice) :=
  data <- _make_request (gmap string (gmap string Q)) upstream latency frames
            ("/simple/price?ids=" +:+ coin_id +:+ "&vs_currencies=" +:+ vs_currency
             +:+ "&" +:+ "include_24hr_change=true&include_market_cap=true") ;;
  match data with
  | Some data =>
      if negb (bool_decide (data = ∅)) && bool_decide (is_Some (data !! coin_id)) then
        match data !! coin_id with
        | Some entry =>
            ret (Some {| token_price := entry !! vs_currency;
                         token_change_24h := entry !! (vs_currency +:+ "_24h_change");
                         token_market_cap := entry !! (vs_currency +:+ "_market_cap") |})
        | None => raise (KeyError coin_id)
        end
      else ret None
  | None => ret None
  end.

(** [get_exchange_rate]; the dict [get_token_price] builds has three keys
    and is a true value. *)
Definition get_exchange_rate (from_currency to_currency : string)
    : M State (option Q) :=
  data <- get_token_price from_currency to_currency ;;
  match data with
  | Some data => ret (token_price data)
  | None => ret None
  end.

End Price.

End CoinGecko.

(** ** The DefiLlama fetch layer *)

Module DefiLlama.

Record DefiLlamaAPI : Type := {
  base_url : string;
  rate_limit : Q;
  last_request_time : Q;
  min_request_interval : Q
}.

(** [DefiLlamaAPI.__init__] *)
Definition __init__ (cfg_base_url : option string) (cfg_rate_limit : option Q)
    : Result DefiLlamaAPI :=
  let rate_limit := default 100%Q cfg_rate_limit in
  match truediv 60 rate_limit with
  | Ok interval =>
      Ok {| base_url := default "https://api.llama.fi" cfg_base_url;
            rate_limit := rate_limit;
            last_request_time := 0;
            min_request_interval := interval |}
  | Raise e => Raise e
  end.

(** The client and the world it acts on; the events and the outcomes of a
    GET are those of the CoinGecko client. *)
Record State : Type := {
  self : DefiLlamaAPI;
  clock : Q;
  requests_sent : nat;
  trace : list CoinGecko.Event
}.

Definition log (e : CoinGecko.Event) : M State unit :=
  modify (λ s, {| self := self s; clock := clock s;
                  requests_sent := requests_sent s;
                  trace := trace s ++ [e] |}).

Definition time_time : M State Q := λ s, (s, Ok (clock s)).

Definition time_sleep (seconds : Q) : M State unit :=
  modify (λ s, {| self := self s; clock := (clock s + seconds)%Q;
                  requests_sent := requests_sent s;
                  trace := trace s ++ [CoinGecko.ev_sleep seconds] |}).

Definition set_last_request_time (t : Q) : M State unit :=
  modify (λ s, {| self := {| base_url := base_url (self s);
                             rate_limit := rate_limit (self s);
                             last_request_time := t;
                             min_request_interval := min_request_interval (self s) |};
                  clock := clock s;
                  requests_sent := requests_sent s;
                  trace := trace s |}).

Definition try_except_RequestException {A} (body : M State A)
    (handler : PyExc → M State A) : M State A :=
  λ s, match body s with
       | (s', Ok a) => (s', Ok a)
       | (s', Raise e) =>
           if CoinGecko.is_RequestException e then handler e s' else (s', Raise e)
       end.

(** A pool of the [/yields] response: the keys the code reads. *)
Record Pool : Type := {
  project : option string;
  pool_apy : option Q
}.

Section Upstream.

Variable Json : Type.
Variable upstream : nat → string → CoinGecko.GetOutcome Json.
Variable latency : nat → Q.

Definition session_get (url : string) : M State (Z * Json) :=
  λ s,
    let k := requests_sent s in
    let s' := {| self := self s; clock := (clock s + latency k)%Q;
                 requests_sent := S k;
                 trace := trace s ++ [CoinGecko.ev_get url] |} in
    match upstream k url with
    | CoinGecko.GetResponse status_code body => (s', Ok (status_code, body))
    | CoinGecko.GetRaises => (s', Raise RequestException)
    end.

Definition _make_request (endpoint : string) : M State (option Json) :=
  current_time <- time_time ;;
  s <- get ;;
  let time_since_last := (current_time - last_request_time (self s))%Q in
  (if lt time_since_last (min_request_interval (self s))
   then time_sleep (min_request_interval (self s) - time_since_last)
   else ret tt) ;;;
  let url := base_url (self s) +:+ endpoint in
  try_except_RequestException
    (response <- session_get url ;;
     t <- time_time ;;
     set_last_request_time t ;;;
     lift (raise_for_status (fst response)) ;;;
     ret (Some (snd response)))
    (λ e, log (CoinGecko.ev_error e) ;;; ret None).

End Upstream.

Section Yields.

(** The body of the [/yields] response: the list under its ['data'] key,
    [None] when the key is missing. *)
Variable upstream : nat → string → CoinGecko.GetOutcome (option (list Pool)).
Variable latency : nat → Q.

Definition get_protocol_yields (slug : string) : M State (option (list Pool)) :=
  all_yields <- _make_request (option (list Pool)) upstream latency "/yields" ;;
  match all_yields with
  | Some (Some data) =>
      let protocol_yields :=
        filter (λ pool, project pool = Some slug) data in
      ret (match protocol_yields with [] => None | _ => Some protocol_yields end)
  | _ => ret None
  end.

End Yields.

End DefiLlama.

(** ** [DataFetcher._format_number] *)

(** The string built, before the numbers are printed: ["N/A"]; the number
    itself with two decimals ([f"{num:.2f}"]); or the quotient of the number
    by a divisor with two decimals, followed by a suffix
    ([f"{num / divisor:.2f}"] and the suffix).  The division and the
    rounding to two decimals are left to the printing: the model keeps the
    number and the divisor. *)
Inductive Formatted : Type :=
  | NA
  | Plain (num : Q)
  | Scaled (num divisor : Q) (suffix : string).

Definition _format_number (num : option Q) : Formatted :=
  match num with
  | None => NA
  | Some num =>
      if ge num 1e9 then Scaled num 1e9 "B"
      else if ge num 1e6 then Scaled num 1e6 "M"
      else if ge num 1e3 then Scaled num 1e3 "K"
      else Plain num
  end.

(** ** The metric checks on binary64 numbers *)

Module Binary64.

(** A Python float is an IEEE 754 binary64 number; its operations round to
    nearest, ties to even.  [spec_float] with precision 53 and maximal
    exponent 1024 is the specification of these numbers and operations.  A
    Python int of magnitude at most 2^53 behaves in the checks as the float
    of the same value; larger ints are outside the model. *)
Definition float : Type := spec_float.
Definition prec : Z := 53.
Definition emax : Z := 1024.

(** The float of an integer literal of the source ([100], [10], [20]). *)
Definition of_Z (z : Z) : float := binary_normalize prec emax z 0 false.

(** [a - b], [a * b], [abs(a)], [a >= b], [a > b] *)
Definition sub (a b : float) : float := SFsub prec emax a b.
Definition mul (a b : float) : float := SFmul prec emax a b.
Definition abs (a : float) : float := SFabs a.
Definition ge (a b : float) : bool := SFleb b a.
Definition gt (a b : float) : bool := SFltb b a.

(** [0.0] and [-0.0] *)
Definition is_zero (x : float) : bool :=
  match x with
  | S754_zero _ => true
  | _ => false
  end.

(** Truth value of [d.get(key)]: [None] and the two zeros are false, a NaN
    is true. *)
Definition truthy (v : option float) : bool :=
  match v with
  | Some x => negb (is_zero x)
  | None => false
  end.

(** [d[key]] on a metric key. *)
Definition getitem (key : string) (v : option float) : Result float :=
  match v with
  | Some x => Ok x
  | None => Raise (KeyError key)
  end.

(** [a / b]: Python raises on a zero divisor, of either sign. *)
Definition truediv (a b : float) : Result float :=
  if is_zero b then Raise ZeroDivisionError else Ok (SFdiv prec emax a b).

Record Snapshot : Type := {
  name : option string;
  price : option float;
  tvl : option float;
  apy : option float
}.

Record Message : Type := {
  direction : Direction;
  magnitude : float;
  previous : float;
  current : float
}.

Record Alert : Type := {
  alert_type : AlertType;
  protocol : string;
  severity : Severity;
  message : Message;
  timestamp : Timestamp
}.

(** The attributes of the manager that the checks read. *)
Record AlertManager : Type := {
  price_threshold : float;
  tvl_threshold : float;
  apy_threshold : float
}.

Section Checks.

Variable now : Timestamp.

Definition _check_price_change (self : AlertManager) (name : string)
    (prev curr : Snapshot) : Result (option Alert) :=
  if truthy (price prev) && truthy (price curr) then
    match getitem "price" (price curr), getitem "price" (price prev) with
    | Ok c, Ok p =>
        match truediv (sub c p) p with
        | Ok q =>
            let change_percent := mul q (of_Z 100) in
            if ge (abs change_percent) (price_threshold self) then
              Ok (Some
                {| alert_type := type_price;
                   protocol := name;
                   severity := if ge (abs change_percent) (of_Z 10)
                               then HIGH else MEDIUM;
                   message :=
                     {| direction := if gt change_percent (of_Z 0)
                                     then INCREASED else DECREASED;
                        magnitude := abs change_percent;
                        previous := p;
                        current := c |};
                   timestamp := now |})
            else Ok None
        | Raise e => Raise e
        end
    | Raise e, _ => Raise e
    | _, Raise e => Raise e
    end
  else Ok None.

Definition _check_tvl_change (self : AlertManager) (name : string)
    (prev curr : Snapshot) : Result (option Alert) :=
  if truthy (tvl prev) && truthy (tvl curr) then
    match getitem "tvl" (tvl curr), getitem "tvl" (tvl prev) with
    | Ok c, Ok p =>
        match truediv (sub c p) p with
        | Ok q =>
            let change_percent := mul q (of_Z 100) in
            if ge (abs change_percent) (tvl_threshold self) then
              Ok (Some
                {| alert_type := type_tvl;
                   protocol := name;
                   severity := if ge (abs change_percent) (of_Z 20)
                               then HIGH else MEDIUM;
                   message :=
                     {| direction := if gt change_percent (of_Z 0)
                                     then INCREASED else DECREASED;
                        magnitude := abs change_percent;
                        previous := p;
                        current := c |};
                   timestamp := now |})
            else Ok None
        | Raise e => Raise e
        end
    | Raise e, _ => Raise e
    | _, Raise e => Raise e
    end
  else Ok None.

Definition _check_apy_change (self : AlertManager) (name : string)
    (prev curr : Snapshot) : Result (option Alert) :=
  if truthy (apy prev) && truthy (apy curr) then
    match getitem "apy" (apy curr), getitem "apy" (apy prev) with
    | Ok c, Ok p =>
        let change := sub c p in
        if ge (abs change) (apy_threshold self) then
          Ok (Some
            {| alert_type := type_apy;
               protocol := name;
               severity := MEDIUM;
               message :=
                 {| direction := if gt change (of_Z 0)
                                 then INCREASED else DECREASED;
                    magnitude := abs change;
                    previous := p;
                    current := c |};
               timestamp := now |})
        else Ok None
    | Raise e, _ => Raise e
    | _, Raise e => Raise e
    end
  else Ok None.

End Checks.

(** The percent delta of the price and tvl checks, as the code computes
    it: [((c - p) / p) * 100], every operation rounded. *)
Definition percent_delta (p c : float) : float :=
  mul (SFdiv prec emax (sub c p) p) (of_Z 100).

(** The float of a decimal literal [n / d], as for [4.1] or [1.21]. *)
Definition decimal (n d : Z) : float := SFdiv prec emax (of_Z n) (of_Z d).

(** A snapshot and a manager from integer values. *)
Definition snapshot (n : string) (p t a : option float) : Snapshot :=
  {| name := Some n; price := p; tvl := t; apy := a |}.

Definition manager (price_thr tvl_thr apy_thr : Z) : AlertManager :=
  {| price_threshold := of_Z price_thr;
     tvl_threshold := of_Z tvl_thr;
     apy_threshold := of_Z apy_thr |}.

(** The price alert raised when the price goes from 100 to 106. *)
Definition sample_price_alert : Alert :=
  {| alert_type := type_price;
     protocol := "aave";
     severity := MEDIUM;
     message := {| direction := INCREASED;
                   magnitude := abs (percent_delta (of_Z 100) (of_Z 106));
                   previous := of_Z 100;
                   current := of_Z 106 |};
     timestamp := 0%Z |}.

End Binary64.

(** ** Specification-side definitions and sample inputs *)

(** The names of a batch, in order (entries without the key contribute none). *)
Definition names (batch : list Snapshot) : list string := omap name batch.

(** A map overwritten, in order, with every entry of a batch. *)
Definition record_all (m : gmap string Snapshot) (batch : list Snapshot)
    : gmap string Snapshot :=
  foldl (λ m d, match name d with Some n => <[n := d]> m | None => m end) m batch.

Definition snapshot (n : string) (p t a : option Q) : Snapshot :=
  {| name := Some n; price := p; tvl := t; apy := a |}.

(** A snapshot without its ['name'] key. *)
Definition nameless (p t a : option Q) : Snapshot :=
  {| name := None; price := p; tvl := t; apy := a |}.

(** An enabled manager with the given thresholds and no baseline. *)
Definition manager (price_thr tvl_thr apy_thr : Q) : AlertManager :=
  __init__
    (Some {| cfg_enabled := Some true;
             cfg_price_change_threshold := Some price_thr;
             cfg_tvl_change_threshold := Some tvl_thr;
             cfg_apy_change_threshold := Some apy_thr;
             cfg_console := None; cfg_discord_webhook := None;
             cfg_email := None; cfg_smtp_server := None; cfg_smtp_port := None |})
    {| DISCORD_WEBHOOK_URL := None; ALERT_EMAIL := None; ALERT_EMAIL_FROM := None;
       SMTP_USERNAME := None; SMTP_PASSWORD := None |}.

(** The manager built from an empty configuration: alerting is disabled. *)
Definition default_manager : AlertManager :=
  __init__ None
    {| DISCORD_WEBHOOK_URL := None; ALERT_EMAIL := None; ALERT_EMAIL_FROM := None;
       SMTP_USERNAME := None; SMTP_PASSWORD := None |}.

(** The price alert raised when the price goes from 100 to 106. *)
Definition sample_price_alert : Alert :=
  {| alert_type := type_price;
     protocol := "aave";
     severity := MEDIUM;
     message := {| direction := INCREASED;
                   magnitude := Qabs ((106 - 100) / 100 * 100);
                   previous := 100;
                   current := 106 |};
     timestamp := 0%Z |}.

(** A webhook call succeeds when it returns a response whose status is
    not an error status. *)
Definition post_ok (o : PostOutcome) : bool :=
  match o with
  | Response status_code => negb ((400 <=? status_code)%Z && (status_code <? 600)%Z)
  | PostRaises => false
  end.

(** Every call of a batch succeeds, the first one being call number [k]. *)
Fixpoint all_posts_ok (webhook : nat → Embed → PostOutcome) (k : nat)
    (alerts : list Alert) : bool :=
  match alerts with
  | [] => true
  | a :: t => post_ok (webhook k (make_embed a)) && all_posts_ok webhook (S k) t
  end.

(** The channels of a manager that are enabled. *)
Definition console_enabled (self : AlertManager) : bool :=
  default true (cfg_console (alerts_config self)).

Definition webhook_enabled (self : AlertManager) : bool :=
  default false (cfg_discord_webhook (alerts_config self))
  && nonempty (discord_webhook_url self).

Definition email_enabled (self : AlertManager) : bool :=
  default false (cfg_email (alerts_config self))
  && (nonempty (email_to self) && nonempty (email_from self)
      && nonempty (smtp_username self) && nonempty (smtp_password self)).

(** The channels that deliver a batch completely, from a given world. *)
Definition webhook_delivers (webhook : nat → Embed → PostOutcome)
    (self : AlertManager) (alerts : list Alert) (w : World) : bool :=
  webhook_enabled self && all_posts_ok webhook (length (webhook_posts w)) alerts.

Definition email_delivers (now : Timestamp) (smtp_failure : Mail → option SmtpStep)
    (self : AlertManager) (alerts : list Alert) : bool :=
  email_enabled self
  && match smtp_failure (make_mail now self alerts) with None => true | Some _ => false end.

(** A manager with the console and the webhook channels enabled. *)
Definition webhook_manager : AlertManager :=
  __init__
    (Some {| cfg_enabled := Some true;
             cfg_price_change_threshold := None;
             cfg_tvl_change_threshold := None;
             cfg_apy_change_threshold := None;
             cfg_console := Some true; cfg_discord_webhook := Some true;
             cfg_email := None; cfg_smtp_server := None; cfg_smtp_port := None |})
    {| DISCORD_WEBHOOK_URL := Some "https://discord.example/api/webhooks/1";
       ALERT_EMAIL := None; ALERT_EMAIL_FROM := None;
       SMTP_USERNAME := None; SMTP_PASSWORD := None |}.

Definition empty_world : World :=
  {| stdout := []; webhook_posts := []; smtp_sent := [] |}.

(** An endpoint that rejects the first call and accepts the later ones, an
    endpoint that rejects every call, and a transport that never fails. *)
Definition first_call_fails (k : nat) (_ : Embed) : PostOutcome :=
  match k with O => Response 500 | S _ => Response 204 end.

Definition every_call_fails (_ : nat) (_ : Embed) : PostOutcome := Response 500.

Definition smtp_works (_ : Mail) : option SmtpStep := None.

(** A world after further webhook calls. *)
Definition add_posts (w : World) (posts : list Embed) : World :=
  {| stdout := stdout w;
     webhook_posts := webhook_posts w ++ posts;
     smtp_sent := smtp_sent w |}.

(** A client with the default configuration, in a world where nothing has
    happened yet. *)
Definition default_client : CoinGecko.CoinGeckoAPI :=
  {| CoinGecko.base_url := "https://api.coingecko.com/api/v3";
     CoinGecko.api_key := "";
     CoinGecko.rate_limit := 30;
     CoinGecko.last_request_time := 0;
     CoinGecko.min_request_interval := 60 / 30 |}.

Definition fresh_state : CoinGecko.State :=
  {| CoinGecko.self := default_client;
     CoinGecko.clock := 1000;
     CoinGecko.requests_sent := 0;
     CoinGecko.trace := [] |}.

(** An upstream that answers 429 twice and then 200, and one that answers
    429 to every request; the bodies are numbers. *)
Definition two_429_then_200 (k : nat) (_ : string) : CoinGecko.GetOutcome nat :=
  match k with
  | 0%nat | 1%nat => CoinGecko.GetResponse 429 0%nat
  | _ => CoinGecko.GetResponse 200 7%nat
  end.

Definition always_429 (_ : nat) (_ : string) : CoinGecko.GetOutcome nat :=
  CoinGecko.GetResponse 429 0%nat.

Definition no_latency (_ : nat) : Q := 0.

(** What [_make_request] answers on an outcome other than a 429 response. *)
Definition final_answer {Json} (o : CoinGecko.GetOutcome Json) : option Json :=
  match o with
  | CoinGecko.GetResponse status_code body =>
      match raise_for_status status_code with
      | Ok _ => Some body
      | Raise _ => None
      end
  | CoinGecko.GetRaises => None
  end.

Definition is_429 {Json} (o : CoinGecko.GetOutcome Json) : bool :=
  match o with
  | CoinGecko.GetResponse status_code _ => (status_code =? 429)%Z
  | CoinGecko.GetRaises => false
  end.

(** The alerts of the three checks of one entry against its baseline, in
    the order the checks run. *)
Definition emitted (r : Result (option Alert)) : list Alert :=
  match r with
  | Ok (Some a) => [a]
  | _ => []
  end.

Definition alerts_against (now : Timestamp) (self : AlertManager) (n : string)
    (prev curr : Snapshot) : list Alert :=
  emitted (_check_price_change now self n prev curr)
  ++ emitted (_check_tvl_change now self n prev curr)
  ++ emitted (_check_apy_change now self n prev curr).

(** The alerts of a batch against the baselines of a manager, entry by
    entry. *)
Definition expected_alerts (now : Timestamp) (self : AlertManager)
    (batch : list Snapshot) : list Alert :=
  concat (map (λ d, match name d with
                    | Some n =>
                        match previous_data self !! n with
                        | Some prev => alerts_against now self n prev d
                        | None => []
                        end
                    | None => []
                    end) batch).

(** The factor a suffix of [_format_number] stands for. *)
Definition scale (suffix : string) : Q :=
  if String.eqb suffix "B" then 1e9
  else if String.eqb suffix "M" then 1e6
  else if String.eqb suffix "K" then 1e3
  else 1.

(** A manager with complete mail credentials and the email channel
    enabled, and a transport whose login is refused. *)
Definition email_manager : AlertManager :=
  __init__
    (Some {| cfg_enabled := Some true;
             cfg_price_change_threshold := None;
             cfg_tvl_change_threshold := None;
             cfg_apy_change_threshold := None;
             cfg_console := Some false; cfg_discord_webhook := Some true;
             cfg_email := Some true; cfg_smtp_server := None; cfg_smtp_port := None |})
    {| DISCORD_WEBHOOK_URL := Some "https://discord.example/api/webhooks/1";
       ALERT_EMAIL := Some "ops@example.org";
       ALERT_EMAIL_FROM := Some "monitor@example.org";
       SMTP_USERNAME := Some "monitor"; SMTP_PASSWORD := Some "secret" |}.

Definition smtp_login_refused (_ : Mail) : option SmtpStep := Some smtp_login.

(** A DefiLlama client with the default configuration, and upstreams that
    answer 429, respectively a list of pools. *)
Definition llama_client : DefiLlama.DefiLlamaAPI :=
  {| DefiLlama.base_url := "https://api.llama.fi";
     DefiLlama.rate_limit := 100;
     DefiLlama.last_request_time := 0;
     DefiLlama.min_request_interval := 60 / 100 |}.

Definition llama_state : DefiLlama.State :=
  {| DefiLlama.self := llama_client;
     DefiLlama.clock := 1000;
     DefiLlama.requests_sent := 0;
     DefiLlama.trace := [] |}.

Definition sample_pools : list DefiLlama.Pool :=
  [ {| DefiLlama.project := Some "aave-v3"; DefiLlama.pool_apy := Some 3.5%Q |};
    {| DefiLlama.project := Some "lido"; DefiLlama.pool_apy := Some 4%Q |};
    {| DefiLlama.project := Some "aave-v3"; DefiLlama.pool_apy := None |} ].

Definition yields_upstream (_ : nat) (_ : string)
    : CoinGecko.GetOutcome (option (list DefiLlama.Pool)) :=
  CoinGecko.GetResponse 200 (Some sample_pools).

(** A price upstream that answers 429 once and then the price of one coin. *)
Definition price_body : gmap string (gmap string Q) :=
  {[ "aave" := {[ "usd" := 106%Q ]} ]}.

Definition price_upstream (k : nat) (_ : string)
    : CoinGecko.GetOutcome (gmap string (gmap string Q)) :=
  match k with
  | O => CoinGecko.GetResponse 429 ∅
  | S _ => CoinGecko.GetResponse 200 price_body
  end.

(** An upstream that answers every request with status 200. *)
Definition healthy_upstream (_ : nat) (_ : string) : CoinGecko.GetOutcome nat :=
  CoinGecko.GetResponse 200 7%nat.

(** The endpoint [get_token_price] asks for. *)
Definition price_endpoint (coin_id vs_currency : string) : string :=
  "/simple/price?ids=" +:+ coin_id +:+ "&vs_currencies=" +:+ vs_currency
  +:+ "&" +:+ "include_24hr_change=true&include_market_cap=true".

(** The cooldowns of a list of events: the rate-limit warnings that are
    followed at once by a sleep of 60 seconds. *)
Fixpoint cooldown_waits (evs : list CoinGecko.Event) : nat :=
  match evs with
  | [] => 0
  | CoinGecko.ev_warn_rate_limit :: rest =>
      match rest with
      | CoinGecko.ev_sleep seconds :: _ =>
          ((if Qeq_bool seconds 60 then 1 else 0) + cooldown_waits rest)%nat
      | _ => cooldown_waits rest
      end
  | _ :: rest => cooldown_waits rest
  end.

(** * Properties *)

(** ** Numbers *)

Lemma ge_true a b : ge a b = true ↔ (b <= a)%Q.
Proof. unfold ge. apply Qle_bool_iff. Qed.

Lemma ge_false a b : ge a b = false ↔ (a < b)%Q.
Proof.
  unfold ge. split.
  - intros H. apply Qnot_le_lt. intros Hle.
    apply Qle_bool_iff in Hle. congruence.
  - intros H. destruct (Qle_bool b a) eqn:E; [|done].
    apply Qle_bool_iff in E. exfalso. eapply Qlt_not_le; eauto.
Qed.

Lemma truthy_Some x : truthy (Some x) = true ↔ ¬ (x == 0)%Q.
Proof.
  simpl. split.
  - intros H Hx. apply Qeq_bool_iff in Hx. rewrite Hx in H. done.
  - intros H. destruct (Qeq_bool x 0) eqn:E; [|done].
    apply Qeq_bool_iff in E. done.
Qed.

Lemma truthy_false v :
  truthy v = false ↔ v = None ∨ ∃ x, v = Some x ∧ (x == 0)%Q.
Proof.
  destruct v as [x|]; simpl.
  - split.
    + intros H. right. exists x. split; [done|].
      apply Qeq_bool_iff. by destruct (Qeq_bool x 0).
    + intros [?|(y & [= <-] & Hy)]; [done|].
      apply Qeq_bool_iff in Hy. by rewrite Hy.
  - split; [by left | done].
Qed.

Lemma truediv_nonzero a b : ¬ (b == 0)%Q → truediv a b = Ok (a / b)%Q.
Proof.
  intros H. unfold truediv. destruct (Qeq_bool b 0) eqn:E; [|done].
  apply Qeq_bool_iff in E. done.
Qed.

(** ** The metric checks *)

Section MetricChecks.

Variable now : Timestamp.
Variables (self : AlertManager) (n : string).

(** What each check computes once both values are present and nonzero. *)
Lemma _check_price_change_eq prev curr p c :
  price prev = Some p → price curr = Some c →
  ¬ (p == 0)%Q → ¬ (c == 0)%Q →
  _check_price_change now self n prev curr =
    let change_percent := ((c - p) / p * 100)%Q in
    if ge (Qabs change_percent) (price_threshold self) then
      Ok (Some {| alert_type := type_price; protocol := n;
                  severity := if ge (Qabs change_percent) 10 then HIGH else MEDIUM;
                  message := {| direction := if gt change_percent 0
                                             then INCREASED else DECREASED;
                                magnitude := Qabs change_percent;
                                previous := p; current := c |};
                  timestamp := now |})
    else Ok None.
Proof.
  intros Hp Hc Hp0 Hc0. unfold _check_price_change. rewrite Hp, Hc.
  apply truthy_Some in Hp0 as Tp. apply truthy_Some in Hc0 as Tc.
  rewrite Tp, Tc. simpl. by rewrite truediv_nonzero.
Qed.

Lemma _check_tvl_change_eq prev curr p c :
  tvl prev = Some p → tvl curr = Some c →
  ¬ (p == 0)%Q → ¬ (c == 0)%Q →
  _check_tvl_change now self n prev curr =
    let change_percent := ((c - p) / p * 100)%Q in
    if ge (Qabs change_percent) (tvl_threshold self) then
      Ok (Some {| alert_type := type_tvl; protocol := n;
                  severity := if ge (Qabs change_percent) 20 then HIGH else MEDIUM;
                  message := {| direction := if gt change_percent 0
                                             then INCREASED else DECREASED;
                                magnitude := Qabs change_percent;
                                previous := p; current := c |};
                  timestamp := now |})
    else Ok None.
Proof.
  intros Hp Hc Hp0 Hc0. unfold _check_tvl_change. rewrite Hp, Hc.
  apply truthy_Some in Hp0 as Tp. apply truthy_Some in Hc0 as Tc.
  rewrite Tp, Tc. simpl. by rewrite truediv_nonzero.
Qed.

Lemma _check_apy_change_eq prev curr p c :
  apy prev = Some p → apy curr = Some c →
  ¬ (p == 0)%Q → ¬ (c == 0)%Q →
  _check_apy_change now self n prev curr =
    let change := (c - p)%Q in
    if ge (Qabs change) (apy_threshold self) then
      Ok (Some {| alert_type := type_apy; protocol := n;
                  severity := MEDIUM;
                  message := {| direction := if gt change 0
                                             then INCREASED else DECREASED;
                                magnitude := Qabs change;
                                previous := p; current := c |};
                  timestamp := now |})
    else Ok None.
Proof.
  intros Hp Hc Hp0 Hc0. unfold _check_apy_change. rewrite Hp, Hc.
  apply truthy_Some in Hp0 as Tp. apply truthy_Some in Hc0 as Tc.
  by rewrite Tp, Tc.
Qed.

(** A falsy value on either side suppresses the check. *)
Lemma _check_price_change_falsy prev curr :
  truthy (price prev) && truthy (price curr) = false →
  _check_price_change now self n prev curr = Ok None.
Proof. intros H. unfold _check_price_change. by rewrite H. Qed.

Lemma _check_tvl_change_falsy prev curr :
  truthy (tvl prev) && truthy (tvl curr) = false →
  _check_tvl_change now self n prev curr = Ok None.
Proof. intros H. unfold _check_tvl_change. by rewrite H. Qed.

Lemma _check_apy_change_falsy prev curr :
  truthy (apy prev) && truthy (apy curr) = false →
  _check_apy_change now self n prev curr = Ok None.
Proof. intros H. unfold _check_apy_change. by rewrite H. Qed.

(** Case analysis shared by the lemmas on a check: either a value is falsy
    and the check answers [None], or both are present and nonzero. *)
Lemma truthy_cases (u v : option Q) :
  truthy u && truthy v = false ∨
  ∃ p c, u = Some p ∧ v = Some c ∧ ¬ (p == 0)%Q ∧ ¬ (c == 0)%Q.
Proof.
  destruct (truthy u) eqn:Eu; [|by left].
  destruct (truthy v) eqn:Ev; [|by left].
  right. destruct u as [p|]; [|done]. destruct v as [c|]; [|done].
  exists p, c. by rewrite <- !truthy_Some.
Qed.

(** No check raises, and an alert carries the name it was asked about. *)
Lemma _check_price_change_ok prev curr :
  ∃ r, _check_price_change now self n prev curr = Ok r
       ∧ ∀ a, r = Some a → protocol a = n.
Proof.
  destruct (truthy_cases (price prev) (price curr)) as [H|(p & c & Hp & Hc & Hp0 & Hc0)].
  - rewrite _check_price_change_falsy by done. by eexists.
  - rewrite (_check_price_change_eq _ _ p c) by done. simpl.
    destruct (ge _ (price_threshold self)); eexists; (split; [done|]);
      by intros ? [= <-].
Qed.

Lemma _check_tvl_change_ok prev curr :
  ∃ r, _check_tvl_change now self n prev curr = Ok r
       ∧ ∀ a, r = Some a → protocol a = n.
Proof.
  destruct (truthy_cases (tvl prev) (tvl curr)) as [H|(p & c & Hp & Hc & Hp0 & Hc0)].
  - rewrite _check_tvl_change_falsy by done. by eexists.
  - rewrite (_check_tvl_change_eq _ _ p c) by done. simpl.
    destruct (ge _ (tvl_threshold self)); eexists; (split; [done|]);
      by intros ? [= <-].
Qed.

Lemma _check_apy_change_ok prev curr :
  ∃ r, _check_apy_change now self n prev curr = Ok r
       ∧ ∀ a, r = Some a → protocol a = n.
Proof.
  destruct (truthy_cases (apy prev) (apy curr)) as [H|(p & c & Hp & Hc & Hp0 & Hc0)].
  - rewrite _check_apy_change_falsy by done. by eexists.
  - rewrite (_check_apy_change_eq _ _ p c) by done. simpl.
    destruct (ge _ (apy_threshold self)); eexists; (split; [done|]);
      by intros ? [= <-].
Qed.

End MetricChecks.

(** ** Divide-by-zero guard, threshold boundary and severity *)

(** C7. When the previous price (resp. tvl) is 0 or absent, the price
    (resp. tvl) check returns normally, without dividing, and yields no
    alert. *)
Theorem previous_zero_or_absent_no_alert now self n prev curr :
  ((price prev = None ∨ ∃ p, price prev = Some p ∧ (p == 0)%Q) →
     _check_price_change now self n prev curr = Ok None)
  ∧ ((tvl prev = None ∨ ∃ p, tvl prev = Some p ∧ (p == 0)%Q) →
     _check_tvl_change now self n prev curr = Ok None).
Proof.
  split; intros H; apply truthy_false in H.
  - apply _check_price_change_falsy. by rewrite H.
  - apply _check_tvl_change_falsy. by rewrite H.
Qed.

Lemma previous_zero_or_absent_no_alert_witness :
  _check_price_change 0%Z (manager 5 10 1) "aave"
    (snapshot "aave" (Some 0%Q) None None)
    (snapshot "aave" (Some 3%Q) (Some 7%Q) None) = Ok None
  ∧ _check_tvl_change 0%Z (manager 5 10 1) "aave"
    (snapshot "aave" (Some 0%Q) None None)
    (snapshot "aave" (Some 3%Q) (Some 7%Q) None) = Ok None.
Proof.
  split.
  - apply (proj1 (previous_zero_or_absent_no_alert 0%Z (manager 5 10 1) "aave"
                    (snapshot "aave" (Some 0%Q) None None)
                    (snapshot "aave" (Some 3%Q) (Some 7%Q) None))).
    right. exists 0%Q. split; reflexivity.
  - apply (proj2 (previous_zero_or_absent_no_alert 0%Z (manager 5 10 1) "aave"
                    (snapshot "aave" (Some 0%Q) None None)
                    (snapshot "aave" (Some 3%Q) (Some 7%Q) None))).
    left. reflexivity.
Defined.

(** ** The checks on binary64 numbers: threshold boundary and severity *)

(** What each binary64 check computes once both values are present and
    nonzero. *)
Lemma binary64_check_price_change_eq now self n prev curr p c :
  Binary64.price prev = Some p → Binary64.price curr = Some c →
  Binary64.is_zero p = false → Binary64.is_zero c = false →
  Binary64._check_price_change now self n prev curr =
    if Binary64.ge (Binary64.abs (Binary64.percent_delta p c))
         (Binary64.price_threshold self)
    then
      Ok (Some {| Binary64.alert_type := type_price; Binary64.protocol := n;
                  Binary64.severity :=
                    if Binary64.ge (Binary64.abs (Binary64.percent_delta p c))
                         (Binary64.of_Z 10)
                    then HIGH else MEDIUM;
                  Binary64.message :=
                    {| Binary64.direction :=
                         if Binary64.gt (Binary64.percent_delta p c) (Binary64.of_Z 0)
                         then INCREASED else DECREASED;
                       Binary64.magnitude := Binary64.abs (Binary64.percent_delta p c);
                       Binary64.previous := p; Binary64.current := c |};
                  Binary64.timestamp := now |})
    else Ok None.
Proof.
  intros Hp Hc Hp0 Hc0.
  unfold Binary64._check_price_change, Binary64.truthy, Binary64.truediv,
    Binary64.getitem.
  rewrite Hp, Hc. cbv beta iota. rewrite Hp0, Hc0. reflexivity.
Qed.

Lemma binary64_check_tvl_change_eq now self n prev curr p c :
  Binary64.tvl prev = Some p → Binary64.tvl curr = Some c →
  Binary64.is_zero p = false → Binary64.is_zero c = false →
  Binary64._check_tvl_change now self n prev curr =
    if Binary64.ge (Binary64.abs (Binary64.percent_delta p c))
         (Binary64.tvl_threshold self)
    then
      Ok (Some {| Binary64.alert_type := type_tvl; Binary64.protocol := n;
                  Binary64.severity :=
                    if Binary64.ge (Binary64.abs (Binary64.percent_delta p c))
                         (Binary64.of_Z 20)
                    then HIGH else MEDIUM;
                  Binary64.message :=
                    {| Binary64.direction :=
                         if Binary64.gt (Binary64.percent_delta p c) (Binary64.of_Z 0)
                         then INCREASED else DECREASED;
                       Binary64.magnitude := Binary64.abs (Binary64.percent_delta p c);
                       Binary64.previous := p; Binary64.current := c |};
                  Binary64.timestamp := now |})
    else Ok None.
Proof.
  intros Hp Hc Hp0 Hc0.
  unfold Binary64._check_tvl_change, Binary64.truthy, Binary64.truediv,
    Binary64.getitem.
  rewrite Hp, Hc. cbv beta iota. rewrite Hp0, Hc0. reflexivity.
Qed.

Lemma binary64_check_apy_change_eq now self n prev curr p c :
  Binary64.apy prev = Some p → Binary64.apy curr = Some c →
  Binary64.is_zero p = false → Binary64.is_zero c = false →
  Binary64._check_apy_change now self n prev curr =
    if Binary64.ge (Binary64.abs (Binary64.sub c p)) (Binary64.apy_threshold self)
    then
      Ok (Some {| Binary64.alert_type := type_apy; Binary64.protocol := n;
                  Binary64.severity := MEDIUM;
                  Binary64.message :=
                    {| Binary64.direction :=
                         if Binary64.gt (Binary64.sub c p) (Binary64.of_Z 0)
                         then INCREASED else DECREASED;
                       Binary64.magnitude := Binary64.abs (Binary64.sub c p);
                       Binary64.previous := p; Binary64.current := c |};
                  Binary64.timestamp := now |})
    else Ok None.
Proof.
  intros Hp Hc Hp0 Hc0.
  unfold Binary64._check_apy_change, Binary64.truthy, Binary64.getitem.
  rewrite Hp, Hc. cbv beta iota. rewrite Hp0, Hc0. reflexivity.
Qed.

(** Either value false, or both present and nonzero. *)
Lemma binary64_truthy_cases (u v : option Binary64.float) :
  Binary64.truthy u && Binary64.truthy v = false ∨
  ∃ p c, u = Some p ∧ v = Some c
         ∧ Binary64.is_zero p = false ∧ Binary64.is_zero c = false.
Proof.
  destruct u as [p|]; [|by left]. destruct v as [c|]; [|left; apply andb_false_r].
  simpl. destruct (Binary64.is_zero p) eqn:Hp; [by left|].
  destruct (Binary64.is_zero c) eqn:Hc; [by left|].
  right. by exists p, c.
Qed.

(** Two numbers that compare equal compare [>=]. *)
Lemma SFeqb_ge (a b : Binary64.float) : SFeqb a b = true → Binary64.ge a b = true.
Proof.
  unfold Binary64.ge, SFeqb, SFleb.
  destruct a as [sa|sa| |sa ma ea], b as [sb|sb| |sb mb eb]; simpl;
    try destruct sa; try destruct sb; try done.
  - rewrite (Z.compare_antisym ea eb).
    destruct (ea ?= eb)%Z; simpl; try done.
    pose proof (Pos.compare_cont_antisym ma mb Eq) as H. simpl in H.
    rewrite <- H. by destruct (Pos.compare_cont Eq ma mb).
  - rewrite (Z.compare_antisym ea eb).
    destruct (ea ?= eb)%Z; simpl; try done.
    pose proof (Pos.compare_cont_antisym ma mb Eq) as H. simpl in H.
    rewrite <- H. by destruct (Pos.compare_cont Eq ma mb).
Qed.

(** The checks on binary64 numbers round as the interpreter does: a
    price that goes from 100 to 157 has the computed delta
    56.999999999999993, below a threshold of 57; from 1.1 to 1.21 the
    computed delta is 9.9999999999999876, below 10; an apy that goes from
    3.1 to 4.1 has the computed difference 0.99999999999999956, below 1. *)
Lemma computed_delta_is_rounded :
  Binary64._check_price_change 0%Z (Binary64.manager 57 10 1) "aave"
    (Binary64.snapshot "aave" (Some (Binary64.of_Z 100)) None None)
    (Binary64.snapshot "aave" (Some (Binary64.of_Z 157)) None None) = Ok None
  ∧ (∃ a,
       Binary64._check_price_change 0%Z (Binary64.manager 5 10 1) "aave"
         (Binary64.snapshot "aave" (Some (Binary64.decimal 11 10)) None None)
         (Binary64.snapshot "aave" (Some (Binary64.decimal 121 100)) None None)
         = Ok (Some a)
       ∧ Binary64.severity a = MEDIUM)
  ∧ Binary64._check_apy_change 0%Z (Binary64.manager 5 10 1) "lido"
      (Binary64.snapshot "lido" None None (Some (Binary64.decimal 31 10)))
      (Binary64.snapshot "lido" None None (Some (Binary64.decimal 41 10))) = Ok None.
Proof.
  split; [vm_compute; reflexivity|]. split; [|vm_compute; reflexivity].
  eexists. split; vm_compute; reflexivity.
Qed.

(** C5, as the code has it.  On binary64 numbers: when the previous and
    the current price (resp. tvl) are both present and both nonzero, the
    check returns normally and emits an alert if and only if the absolute
    value of the percent delta that the code computes,
    [((current - previous) / previous) * 100] with every operation rounded,
    is at least the configured threshold; a computed delta equal to the
    threshold fires. *)
Theorem alert_iff_delta_reaches_threshold now self n prev curr :
  (∀ p c, Binary64.price prev = Some p → Binary64.price curr = Some c →
     Binary64.is_zero p = false → Binary64.is_zero c = false →
     ∃ r, Binary64._check_price_change now self n prev curr = Ok r
          ∧ (is_Some r ↔
             Binary64.ge (Binary64.abs (Binary64.percent_delta p c))
               (Binary64.price_threshold self) = true)
          ∧ (SFeqb (Binary64.abs (Binary64.percent_delta p c))
               (Binary64.price_threshold self) = true → is_Some r))
  ∧ (∀ p c, Binary64.tvl prev = Some p → Binary64.tvl curr = Some c →
     Binary64.is_zero p = false → Binary64.is_zero c = false →
     ∃ r, Binary64._check_tvl_change now self n prev curr = Ok r
          ∧ (is_Some r ↔
             Binary64.ge (Binary64.abs (Binary64.percent_delta p c))
               (Binary64.tvl_threshold self) = true)
          ∧ (SFeqb (Binary64.abs (Binary64.percent_delta p c))
               (Binary64.tvl_threshold self) = true → is_Some r)).
Proof.
  split; intros p c Hp Hc Hp0 Hc0.
  - rewrite (binary64_check_price_change_eq _ _ _ _ _ p c) by done.
    pose proof (SFeqb_ge (Binary64.abs (Binary64.percent_delta p c))
                  (Binary64.price_threshold self)) as Heq.
    destruct (Binary64.ge _ (Binary64.price_threshold self)); eexists;
      (split; [done|]).
    + split; [done|]. intros _. by eexists.
    + split; [split; [by intros [? [=]] | done]|].
      intros H. by apply Heq in H.
  - rewrite (binary64_check_tvl_change_eq _ _ _ _ _ p c) by done.
    pose proof (SFeqb_ge (Binary64.abs (Binary64.percent_delta p c))
                  (Binary64.tvl_threshold self)) as Heq.
    destruct (Binary64.ge _ (Binary64.tvl_threshold self)); eexists;
      (split; [done|]).
    + split; [done|]. intros _. by eexists.
    + split; [split; [by intros [? [=]] | done]|].
      intros H. by apply Heq in H.
Qed.

Lemma alert_iff_delta_reaches_threshold_witness :
  ∃ r, Binary64._check_price_change 0%Z (Binary64.manager 5 10 1) "aave"
         (Binary64.snapshot "aave" (Some (Binary64.of_Z 100)) None None)
         (Binary64.snapshot "aave" (Some (Binary64.of_Z 105)) None None) = Ok r
       ∧ (is_Some r ↔
          Binary64.ge
            (Binary64.abs (Binary64.percent_delta (Binary64.of_Z 100) (Binary64.of_Z 105)))
            (Binary64.price_threshold (Binary64.manager 5 10 1)) = true)
       ∧ (SFeqb
            (Binary64.abs (Binary64.percent_delta (Binary64.of_Z 100) (Binary64.of_Z 105)))
            (Binary64.price_threshold (Binary64.manager 5 10 1)) = true → is_Some r).
Proof.
  apply (proj1 (alert_iff_delta_reaches_threshold 0%Z (Binary64.manager 5 10 1) "aave"
                  (Binary64.snapshot "aave" (Some (Binary64.of_Z 100)) None None)
                  (Binary64.snapshot "aave" (Some (Binary64.of_Z 105)) None None))
           (Binary64.of_Z 100) (Binary64.of_Z 105));
    reflexivity.
Defined.

(** C5 fails as stated, in two ways.  Both prices are present, the
    previous one is nonzero and the computed delta is -100 percent, far
    beyond the threshold 5, yet no alert is emitted, because the current
    price 0.0 is a false value.  And the delta that decides is the rounded
    one: from 100 to 157 the exact percent delta is 57, equal to the
    threshold 57, but the code computes 56.999999999999993 and emits no
    alert. *)
Lemma present_zero_current_price_no_alert :
  Binary64.price (Binary64.snapshot "aave" (Some (Binary64.of_Z 100)) None None)
    = Some (Binary64.of_Z 100)
  ∧ Binary64.price (Binary64.snapshot "aave" (Some (Binary64.of_Z 0)) None None)
    = Some (Binary64.of_Z 0)
  ∧ Binary64.is_zero (Binary64.of_Z 100) = false
  ∧ Binary64.ge
      (Binary64.abs (Binary64.percent_delta (Binary64.of_Z 100) (Binary64.of_Z 0)))
      (Binary64.price_threshold (Binary64.manager 5 10 1)) = true
  ∧ Binary64._check_price_change 0%Z (Binary64.manager 5 10 1) "aave"
      (Binary64.snapshot "aave" (Some (Binary64.of_Z 100)) None None)
      (Binary64.snapshot "aave" (Some (Binary64.of_Z 0)) None None) = Ok None
  ∧ ((157 - 100) / 100 * 100 == 57)%Q
  ∧ Binary64._check_price_change 0%Z (Binary64.manager 57 10 1) "aave"
      (Binary64.snapshot "aave" (Some (Binary64.of_Z 100)) None None)
      (Binary64.snapshot "aave" (Some (Binary64.of_Z 157)) None None) = Ok None.
Proof. repeat split; vm_compute; reflexivity. Qed.

(** C2, as the code has it.  On binary64 numbers: an emitted price alert
    is HIGH when the absolute value of the computed percent delta is at
    least 10 and MEDIUM when it is not; an emitted tvl alert is HIGH when
    it is at least 20 and MEDIUM when it is not.  The two bounds are
    constants of the code; they are twice the threshold when the price
    threshold is 5 and the tvl threshold is 10 (the defaults).  An apy
    alert is MEDIUM for every delta. *)
Theorem severity_of_alert now self n prev curr a :
  (Binary64._check_price_change now self n prev curr = Ok (Some a) →
     ∃ p c, Binary64.price prev = Some p ∧ Binary64.price curr = Some c
       ∧ Binary64.ge (Binary64.abs (Binary64.percent_delta p c))
           (Binary64.price_threshold self) = true
       ∧ (Binary64.ge (Binary64.abs (Binary64.percent_delta p c)) (Binary64.of_Z 10) = true
          → Binary64.severity a = HIGH)
       ∧ (Binary64.ge (Binary64.abs (Binary64.percent_delta p c)) (Binary64.of_Z 10) = false
          → Binary64.severity a = MEDIUM)
       ∧ (Binary64.price_threshold self = Binary64.of_Z 5 →
          (Binary64.ge (Binary64.abs (Binary64.percent_delta p c))
             (Binary64.mul (Binary64.of_Z 2) (Binary64.price_threshold self)) = true
           → Binary64.severity a = HIGH)
          ∧ (Binary64.ge (Binary64.abs (Binary64.percent_delta p c))
               (Binary64.mul (Binary64.of_Z 2) (Binary64.price_threshold self)) = false
             → Binary64.severity a = MEDIUM)))
  ∧ (Binary64._check_tvl_change now self n prev curr = Ok (Some a) →
     ∃ p c, Binary64.tvl prev = Some p ∧ Binary64.tvl curr = Some c
       ∧ Binary64.ge (Binary64.abs (Binary64.percent_delta p c))
           (Binary64.tvl_threshold self) = true
       ∧ (Binary64.ge (Binary64.abs (Binary64.percent_delta p c)) (Binary64.of_Z 20) = true
          → Binary64.severity a = HIGH)
       ∧ (Binary64.ge (Binary64.abs (Binary64.percent_delta p c)) (Binary64.of_Z 20) = false
          → Binary64.severity a = MEDIUM)
       ∧ (Binary64.tvl_threshold self = Binary64.of_Z 10 →
          (Binary64.ge (Binary64.abs (Binary64.percent_delta p c))
             (Binary64.mul (Binary64.of_Z 2) (Binary64.tvl_threshold self)) = true
           → Binary64.severity a = HIGH)
          ∧ (Binary64.ge (Binary64.abs (Binary64.percent_delta p c))
               (Binary64.mul (Binary64.of_Z 2) (Binary64.tvl_threshold self)) = false
             → Binary64.severity a = MEDIUM)))
  ∧ (Binary64._check_apy_change now self n prev curr = Ok (Some a) →
     Binary64.severity a = MEDIUM).
Proof.
  split; [|split].
  - destruct (binary64_truthy_cases (Binary64.price prev) (Binary64.price curr))
      as [H|(p & c & Hp & Hc & Hp0 & Hc0)].
    { unfold Binary64._check_price_change. by rewrite H. }
    rewrite (binary64_check_price_change_eq _ _ _ _ _ p c) by done.
    destruct (Binary64.ge _ (Binary64.price_threshold self)) eqn:E; [|done].
    intros Ha.
    assert (Hsev : Binary64.severity a
                   = if Binary64.ge (Binary64.abs (Binary64.percent_delta p c))
                          (Binary64.of_Z 10)
                     then HIGH else MEDIUM).
    { inversion Ha. reflexivity. }
    rewrite Hsev. clear Ha Hsev.
    exists p, c. do 3 (split; [done|]).
    split; [by intros ->|]. split; [by intros ->|].
    intros ->.
    replace (Binary64.mul (Binary64.of_Z 2) (Binary64.of_Z 5)) with (Binary64.of_Z 10)
      by (vm_compute; reflexivity).
    split; by intros ->.
  - destruct (binary64_truthy_cases (Binary64.tvl prev) (Binary64.tvl curr))
      as [H|(p & c & Hp & Hc & Hp0 & Hc0)].
    { unfold Binary64._check_tvl_change. by rewrite H. }
    rewrite (binary64_check_tvl_change_eq _ _ _ _ _ p c) by done.
    destruct (Binary64.ge _ (Binary64.tvl_threshold self)) eqn:E; [|done].
    intros Ha.
    assert (Hsev : Binary64.severity a
                   = if Binary64.ge (Binary64.abs (Binary64.percent_delta p c))
                          (Binary64.of_Z 20)
                     then HIGH else MEDIUM).
    { inversion Ha. reflexivity. }
    rewrite Hsev. clear Ha Hsev.
    exists p, c. do 3 (split; [done|]).
    split; [by intros ->|]. split; [by intros ->|].
    intros ->.
    replace (Binary64.mul (Binary64.of_Z 2) (Binary64.of_Z 10)) with (Binary64.of_Z 20)
      by (vm_compute; reflexivity).
    split; by intros ->.
  - destruct (binary64_truthy_cases (Binary64.apy prev) (Binary64.apy curr))
      as [H|(p & c & Hp & Hc & Hp0 & Hc0)].
    { unfold Binary64._check_apy_change. by rewrite H. }
    rewrite (binary64_check_apy_change_eq _ _ _ _ _ p c) by done.
    destruct (Binary64.ge _ (Binary64.apy_threshold self)); [|done].
    intros Ha. inversion Ha. reflexivity.
Qed.

Lemma severity_of_alert_witness :
  ∃ p c,
    Binary64.price (Binary64.snapshot "aave" (Some (Binary64.of_Z 100)) None None) = Some p
    ∧ Binary64.price (Binary64.snapshot "aave" (Some (Binary64.of_Z 106)) None None) = Some c
    ∧ Binary64.ge (Binary64.abs (Binary64.percent_delta p c))
        (Binary64.price_threshold (Binary64.manager 5 10 1)) = true
    ∧ (Binary64.ge (Binary64.abs (Binary64.percent_delta p c)) (Binary64.of_Z 10) = true
       → Binary64.severity Binary64.sample_price_alert = HIGH)
    ∧ (Binary64.ge (Binary64.abs (Binary64.percent_delta p c)) (Binary64.of_Z 10) = false
       → Binary64.severity Binary64.sample_price_alert = MEDIUM)
    ∧ (Binary64.price_threshold (Binary64.manager 5 10 1) = Binary64.of_Z 5 →
       (Binary64.ge (Binary64.abs (Binary64.percent_delta p c))
          (Binary64.mul (Binary64.of_Z 2)
             (Binary64.price_threshold (Binary64.manager 5 10 1))) = true
        → Binary64.severity Binary64.sample_price_alert = HIGH)
       ∧ (Binary64.ge (Binary64.abs (Binary64.percent_delta p c))
            (Binary64.mul (Binary64.of_Z 2)
               (Binary64.price_threshold (Binary64.manager 5 10 1))) = false
          → Binary64.severity Binary64.sample_price_alert = MEDIUM)).
Proof.
  apply (proj1 (severity_of_alert 0%Z (Binary64.manager 5 10 1) "aave"
                  (Binary64.snapshot "aave" (Some (Binary64.of_Z 100)) None None)
                  (Binary64.snapshot "aave" (Some (Binary64.of_Z 106)) None None)
                  Binary64.sample_price_alert)).
  vm_compute. reflexivity.
Defined.

(** C2 fails as stated, in two ways.  With the price threshold configured
    to 3, a computed delta of 7.000000000000001 percent is more than twice
    the threshold, yet the alert is MEDIUM.  And the delta that decides is
    the rounded one: with the default threshold 5, from 8000000000000001 to
    8800000000000001 the exact percent delta is below 10, twice the
    threshold, but the code computes 10.0 and the alert is HIGH. *)
Lemma twice_threshold_not_high :
  (∃ a, Binary64._check_price_change 0%Z (Binary64.manager 3 10 1) "aave"
          (Binary64.snapshot "aave" (Some (Binary64.of_Z 100)) None None)
          (Binary64.snapshot "aave" (Some (Binary64.of_Z 107)) None None) = Ok (Some a)
        ∧ Binary64.ge
            (Binary64.abs (Binary64.percent_delta (Binary64.of_Z 100) (Binary64.of_Z 107)))
            (Binary64.mul (Binary64.of_Z 2)
               (Binary64.price_threshold (Binary64.manager 3 10 1))) = true
        ∧ Binary64.severity a = MEDIUM)
  ∧ (5 <= (8800000000000001 - 8000000000000001) / 8000000000000001 * 100)%Q
  ∧ ((8800000000000001 - 8000000000000001) / 8000000000000001 * 100 < 2 * 5)%Q
  ∧ (∃ a, Binary64._check_price_change 0%Z (Binary64.manager 5 10 1) "aave"
            (Binary64.snapshot "aave" (Some (Binary64.of_Z 8000000000000001)) None None)
            (Binary64.snapshot "aave" (Some (Binary64.of_Z 8800000000000001)) None None)
          = Ok (Some a)
          ∧ Binary64.severity a = HIGH).
Proof.
  split; [eexists; repeat split; vm_compute; reflexivity|].
  split; [by vm_compute|]. split; [by vm_compute|].
  eexists. split; vm_compute; reflexivity.
Qed.

(** ** The baseline map *)

Lemma set_previous_data_twice f g s :
  set_previous_data f (set_previous_data g s) = set_previous_data (f ∘ g) s.
Proof. reflexivity. Qed.

Lemma set_previous_data_ext f g s :
  f (previous_data s) = g (previous_data s) →
  set_previous_data f s = set_previous_data g s.
Proof. unfold set_previous_data. by intros ->. Qed.

Lemma set_previous_data_same s :
  set_previous_data (λ _, previous_data s) s = s.
Proof. by destruct s. Qed.

Lemma names_cons_Some d n t : name d = Some n → names (d :: t) = n :: names t.
Proof. intros H. unfold names. simpl. by rewrite H. Qed.

Lemma names_cons_None d t : name d = None → names (d :: t) = names t.
Proof. intros H. unfold names. simpl. by rewrite H. Qed.

Lemma elem_of_names d n batch : d ∈ batch → name d = Some n → n ∈ names batch.
Proof. intros Hd Hn. apply list_elem_of_omap. eauto. Qed.

Lemma record_all_cons m d t :
  record_all m (d :: t) =
    record_all (match name d with Some n => <[n := d]> m | None => m end) t.
Proof. reflexivity. Qed.

(** Names outside the batch keep their entry. *)
Lemma record_all_lookup_other batch : ∀ m k,
  k ∉ names batch → record_all m batch !! k = m !! k.
Proof.
  induction batch as [|d t IH]; intros m k Hk; [done|].
  rewrite record_all_cons. destruct (name d) as [n|] eqn:Hn.
  - rewrite (names_cons_Some _ n) in Hk by done.
    apply not_elem_of_cons in Hk as [Hne Hk].
    rewrite IH by done. by rewrite lookup_insert_ne.
  - rewrite names_cons_None in Hk by done. by apply IH.
Qed.

(** The result depends on the initial map only outside the batch's names. *)
Lemma record_all_agree batch : ∀ m1 m2,
  (∀ k, k ∉ names batch → m1 !! k = m2 !! k) →
  record_all m1 batch = record_all m2 batch.
Proof.
  induction batch as [|d t IH]; intros m1 m2 H.
  - apply map_eq. intros k. apply H. unfold names. simpl. apply not_elem_of_nil.
  - rewrite !record_all_cons. destruct (name d) as [n|] eqn:Hn.
    + apply IH. intros k Hk. destruct (decide (n = k)) as [->|Hne].
      * by rewrite !lookup_insert_eq.
      * rewrite !lookup_insert_ne by done. apply H.
        rewrite (names_cons_Some _ n) by done.
        apply not_elem_of_cons. by split.
    + apply IH. intros k Hk. apply H. by rewrite names_cons_None.
Qed.

(** With pairwise distinct names every entry of the batch is the recorded
    one for its name. *)
Lemma record_all_lookup_entry batch : ∀ m d n,
  NoDup (names batch) → d ∈ batch → name d = Some n →
  record_all m batch !! n = Some d.
Proof.
  induction batch as [|d0 t IH]; intros m d n Hnd Hd Hn.
  - by apply elem_of_nil in Hd.
  - rewrite record_all_cons. destruct (name d0) as [n0|] eqn:Hn0.
    + rewrite (names_cons_Some _ n0) in Hnd by done.
      apply NoDup_cons in Hnd as [Hfresh Hnd].
      apply elem_of_cons in Hd as [->|Hd].
      * assert (n0 = n) as -> by congruence.
        rewrite record_all_lookup_other by done. apply lookup_insert_eq.
      * by apply IH.
    + rewrite names_cons_None in Hnd by done.
      apply elem_of_cons in Hd as [->|Hd]; [congruence|]. by apply IH.
Qed.

(** ** The two loops of [check_alerts] *)

Section CheckAlerts.

Variable now : Timestamp.

Lemma check_protocol_nameless d acc s :
  name d = None →
  check_protocol now d acc s = (s, Raise (KeyError "name")).
Proof.
  intros H. unfold check_protocol, bind, lift, getitem_name. by rewrite H.
Qed.

Lemma check_protocol_fresh d n acc s :
  name d = Some n → previous_data s !! n = None →
  check_protocol now d acc s = (set_previous_data <[n := d]> s, Ok acc).
Proof.
  intros Hn Hm. unfold check_protocol, bind, lift, get, getitem_name.
  rewrite Hn. by rewrite Hm.
Qed.

Lemma check_protocol_known d n prev acc s :
  name d = Some n → previous_data s !! n = Some prev →
  ∃ new, check_protocol now d acc s = (s, Ok (acc ++ new))
         ∧ Forall (λ a, protocol a = n) new.
Proof.
  intros Hn Hm. unfold check_protocol, bind, lift, get, getitem_name, ret.
  rewrite Hn. rewrite Hm.
  destruct (_check_price_change_ok now s n prev d) as (r1 & -> & H1).
  destruct (_check_tvl_change_ok now s n prev d) as (r2 & -> & H2).
  destruct (_check_apy_change_ok now s n prev d) as (r3 & -> & H3).
  exists (option_list r1 ++ option_list r2 ++ option_list r3). split.
  - f_equal. f_equal.
    destruct r1, r2, r3; simpl; rewrite <- ?app_assoc, ?app_nil_r; done.
  - rewrite !Forall_app. repeat split.
    + destruct r1; constructor; auto.
    + destruct r2; constructor; auto.
    + destruct r3; constructor; auto.
Qed.

(** The first loop on a batch whose entries all have a name: it returns;
    it only adds baselines, and only for names of the batch; every alert
    it appends is about a name of the batch and, when the names are
    pairwise distinct, about a name that had a baseline beforehand. *)
Lemma first_loop_ok batch :
  Forall (λ d, is_Some (name d)) batch →
  ∀ acc s, ∃ m' new,
    for_each batch (check_protocol now) acc s
      = (set_previous_data (λ _, m') s, Ok (acc ++ new))
    ∧ previous_data s ⊆ m'
    ∧ (∀ k, k ∉ names batch → m' !! k = previous_data s !! k)
    ∧ Forall (λ a, protocol a ∈ names batch) new
    ∧ (NoDup (names batch) →
       Forall (λ a, is_Some (previous_data s !! protocol a)) new).
Proof.
  induction 1 as [|d t [n Hn] Hall IH]; intros acc s.
  - exists (previous_data s), []. simpl. unfold ret.
    rewrite set_previous_data_same, app_nil_r. by repeat split.
  - rewrite (names_cons_Some _ n) by done. simpl. unfold bind.
    destruct (previous_data s !! n) as [prev|] eqn:Hm.
    + destruct (check_protocol_known d n prev acc s) as (new1 & -> & Hnew1); [done..|].
      destruct (IH (acc ++ new1) s) as (m' & new2 & -> & Hsub & Hout & Hin & Hdup).
      exists m', (new1 ++ new2). rewrite app_assoc. split; [done|].
      split; [done|]. split.
      { intros k Hk. apply not_elem_of_cons in Hk as [_ Hk]. by apply Hout. }
      split.
      { apply Forall_app. split.
        - eapply Forall_impl; [exact Hnew1|]. intros a ->. apply elem_of_cons. by left.
        - eapply Forall_impl; [exact Hin|]. intros a Ha. apply elem_of_cons. by right. }
      intros Hnd. apply NoDup_cons in Hnd as [_ Hnd]. apply Forall_app. split.
      * eapply Forall_impl; [exact Hnew1|]. intros a ->. by rewrite Hm.
      * by apply Hdup.
    + rewrite (check_protocol_fresh d n) by done.
      destruct (IH acc (set_previous_data <[n := d]> s))
        as (m' & new & -> & Hsub & Hout & Hin & Hdup).
      simpl in Hsub, Hout, Hdup.
      exists m', new. split; [done|]. split.
      { etrans; [|exact Hsub]. by apply insert_subseteq. }
      split.
      { intros k Hk. apply not_elem_of_cons in Hk as [Hne Hk].
        rewrite Hout by done. by rewrite lookup_insert_ne. }
      split.
      { eapply Forall_impl; [exact Hin|]. intros a Ha. apply elem_of_cons. by right. }
      intros Hnd. apply NoDup_cons in Hnd as [Hfresh Hnd].
      specialize (Hdup Hnd). rewrite Forall_forall in Hin, Hdup |- *.
      intros a Ha. specialize (Hdup a Ha). specialize (Hin a Ha).
      rewrite lookup_insert_ne in Hdup; [done|]. by intros ->.
Qed.

(** The second loop on such a batch overwrites the map with every entry. *)
Lemma second_loop_ok batch :
  Forall (λ d, is_Some (name d)) batch →
  ∀ s, for_each batch update_previous tt s
         = (set_previous_data (λ m, record_all m batch) s, Ok tt).
Proof.
  induction 1 as [|d t [n Hn] Hall IH]; intros s.
  - simpl. unfold ret. by destruct s.
  - simpl. unfold bind, update_previous at 1, bind, lift, getitem_name, modify.
    rewrite Hn. by rewrite IH.
Qed.

(** [check_alerts] on an enabled manager and such a batch. *)
Lemma check_alerts_ok batch s :
  enabled s = true →
  Forall (λ d, is_Some (name d)) batch →
  ∃ alerts,
    check_alerts now batch s
      = (set_previous_data (λ m, record_all m batch) s, Ok alerts)
    ∧ Forall (λ a, protocol a ∈ names batch) alerts
    ∧ (NoDup (names batch) →
       Forall (λ a, is_Some (previous_data s !! protocol a)) alerts).
Proof.
  intros Hen Hall. unfold check_alerts, bind, get. rewrite Hen. simpl.
  destruct (first_loop_ok batch Hall [] s) as (m' & new & -> & _ & Hout & Hin & Hdup).
  rewrite second_loop_ok by done. unfold ret. simpl.
  exists new. split; [|by split].
  f_equal. rewrite set_previous_data_twice. unfold compose.
  rewrite (record_all_agree batch m' (previous_data s)) by done.
  by destruct s.
Qed.

End CheckAlerts.

Lemma for_each_app {S A B} (xs ys : list A) (body : A → B → M S B) : ∀ acc s,
  for_each (xs ++ ys) body acc s
    = bind (for_each xs body acc) (λ acc', for_each ys body acc') s.
Proof.
  induction xs as [|x xs IH]; intros acc s; [done|].
  simpl. unfold bind in *. destruct (body x acc s) as [s1 [acc1|e]]; [|done].
  by rewrite IH.
Qed.

(** ** Disabled detector *)

Lemma check_alerts_disabled now self batch :
  enabled self = false → check_alerts now batch self = (self, Ok []).
Proof. intros H. unfold check_alerts, bind, get. by rewrite H. Qed.

(** C10. With alerting disabled, [check_alerts] returns the empty list and
    leaves the manager, its previous-snapshot map included, as it was, for
    every batch. *)
Theorem disabled_check_alerts_is_noop now self batch :
  enabled self = false →
  check_alerts now batch self = (self, Ok []).
Proof. apply check_alerts_disabled. Qed.

Lemma disabled_check_alerts_is_noop_witness :
  check_alerts 0%Z
    [snapshot "aave" (Some 100%Q) None None; nameless (Some 1%Q) None None]
    default_manager = (default_manager, Ok []).
Proof.
  apply (disabled_check_alerts_is_noop 0%Z default_manager
           [snapshot "aave" (Some 100%Q) None None; nameless (Some 1%Q) None None]).
  reflexivity.
Defined.

(** ** Entries without a name *)

(** C1, as the code has it.  With alerting enabled, a batch whose entries
    all have their name is processed entirely and the call returns: the
    baseline map is the old one overwritten with every entry.  An entry
    without its name is not skipped: the call raises [KeyError] at the
    first such entry; the entries after it are not processed and no
    baseline recorded before the call is replaced. *)
Theorem check_alerts_needs_every_name now self batch :
  enabled self = true →
  (Forall (λ d, is_Some (name d)) batch →
     ∃ alerts,
       check_alerts now batch self
         = (set_previous_data (λ m, record_all m batch) self, Ok alerts))
  ∧ (∀ pre d post,
       batch = pre ++ d :: post →
       Forall (λ d, is_Some (name d)) pre → name d = None →
       ∃ self',
         check_alerts now batch self = (self', Raise (KeyError "name"))
         ∧ previous_data self ⊆ previous_data self'
         ∧ ∀ k, k ∉ names pre → previous_data self' !! k = previous_data self !! k).
Proof.
  intros Hen. split.
  - intros Hall. destruct (check_alerts_ok now batch self Hen Hall) as (alerts & H & _).
    by exists alerts.
  - intros pre d post -> Hall Hd.
    unfold check_alerts, bind at 1, get. rewrite Hen. simpl.
    unfold bind at 1. rewrite for_each_app. unfold bind at 1.
    destruct (first_loop_ok now pre Hall [] self) as (m' & new & -> & Hsub & Hout & _).
    simpl. unfold bind at 1. rewrite check_protocol_nameless by done.
    eexists. split; [done|]. by split.
Qed.

Lemma check_alerts_needs_every_name_witness :
  (∃ alerts,
     check_alerts 0%Z
       [snapshot "aave" (Some 100%Q) None None; snapshot "lido" None (Some 5%Q) None]
       (manager 5 10 1)
     = (set_previous_data
          (λ m, record_all m [snapshot "aave" (Some 100%Q) None None;
                              snapshot "lido" None (Some 5%Q) None])
          (manager 5 10 1), Ok alerts))
  ∧ (∃ self',
       check_alerts 0%Z
         ([snapshot "aave" (Some 100%Q) None None]
          ++ nameless (Some 1%Q) None None :: [snapshot "lido" (Some 2%Q) None None])
         (manager 5 10 1) = (self', Raise (KeyError "name"))
       ∧ previous_data (manager 5 10 1) ⊆ previous_data self'
       ∧ ∀ k, k ∉ names [snapshot "aave" (Some 100%Q) None None] →
              previous_data self' !! k = previous_data (manager 5 10 1) !! k).
Proof.
  split.
  - apply (proj1 (check_alerts_needs_every_name 0%Z (manager 5 10 1)
                    [snapshot "aave" (Some 100%Q) None None;
                     snapshot "lido" None (Some 5%Q) None] eq_refl)).
    repeat constructor; by eexists.
  - apply (proj2 (check_alerts_needs_every_name 0%Z (manager 5 10 1)
                    ([snapshot "aave" (Some 100%Q) None None]
                     ++ nameless (Some 1%Q) None None
                        :: [snapshot "lido" (Some 2%Q) None None]) eq_refl)
             [snapshot "aave" (Some 100%Q) None None]
             (nameless (Some 1%Q) None None)
             [snapshot "lido" (Some 2%Q) None None]).
    + reflexivity.
    + repeat constructor; by eexists.
    + reflexivity.
Defined.

(** C1 fails as stated: the second entry has no name; the call raises
    [KeyError], and the third entry, "lido", is never processed (it gets no
    baseline). *)
Lemma nameless_entry_aborts_batch :
  snd (check_alerts 0%Z
         [snapshot "aave" (Some 100%Q) None None;
          nameless (Some 1%Q) None None;
          snapshot "lido" (Some 2%Q) None None]
         (manager 5 10 1)) = Raise (KeyError "name")
  ∧ previous_data
      (fst (check_alerts 0%Z
              [snapshot "aave" (Some 100%Q) None None;
               nameless (Some 1%Q) None None;
               snapshot "lido" (Some 2%Q) None None]
              (manager 5 10 1))) !! "lido" = None.
Proof. split; vm_compute; reflexivity. Qed.

(** ** First observation of a protocol *)

(** C8. On an enabled manager and a batch of named entries with pairwise
    distinct names, a protocol that has no entry in the previous-snapshot
    map when [check_alerts] is called gets no alert in the returned list,
    and its snapshot of the batch is the baseline after the call. *)
Theorem first_seen_protocol_is_baseline now self batch d n :
  enabled self = true →
  Forall (λ d, is_Some (name d)) batch →
  NoDup (names batch) →
  d ∈ batch → name d = Some n →
  previous_data self !! n = None →
  ∃ self' alerts,
    check_alerts now batch self = (self', Ok alerts)
    ∧ Forall (λ a, protocol a ≠ n) alerts
    ∧ previous_data self' !! n = Some d.
Proof.
  intros Hen Hall Hnd Hd Hn Hfresh.
  destruct (check_alerts_ok now batch self Hen Hall) as (alerts & -> & _ & Hknown).
  eexists _, alerts. split; [done|]. split.
  - eapply Forall_impl; [exact (Hknown Hnd)|].
    intros a [prev Hprev] Heq. rewrite Heq in Hprev. congruence.
  - simpl. by apply record_all_lookup_entry.
Qed.

Lemma first_seen_protocol_is_baseline_witness :
  ∃ self' alerts,
    check_alerts 0%Z
      [snapshot "aave" (Some 100%Q) None None; snapshot "lido" None (Some 5%Q) None]
      (manager 5 10 1) = (self', Ok alerts)
    ∧ Forall (λ a, protocol a ≠ "lido") alerts
    ∧ previous_data self' !! "lido" = Some (snapshot "lido" None (Some 5%Q) None).
Proof.
  apply (first_seen_protocol_is_baseline 0%Z (manager 5 10 1)
           [snapshot "aave" (Some 100%Q) None None; snapshot "lido" None (Some 5%Q) None]
           (snapshot "lido" None (Some 5%Q) None) "lido").
  - reflexivity.
  - repeat constructor; by eexists.
  - apply (bool_decide_unpack _). vm_compute. reflexivity.
  - apply elem_of_cons. right. apply elem_of_cons. by left.
  - reflexivity.
  - reflexivity.
Defined.

(** C8 fails as stated, in three ways.  A protocol without baseline that
    occurs twice in the batch gets an alert: its second entry is compared
    with its first.  On a disabled manager the snapshot of a protocol
    without baseline is not recorded.  And after an entry without its
    ['name'] key the call has raised before the protocol is reached: its
    snapshot is not recorded either. *)
Lemma first_seen_protocol_alerted_or_not_recorded :
  previous_data (manager 5 10 1) !! "compound" = None
  ∧ (∃ a rest,
       snd (check_alerts 0%Z
              [snapshot "compound" (Some 100%Q) None None;
               snapshot "compound" (Some 200%Q) None None]
              (manager 5 10 1)) = Ok (a :: rest)
       ∧ protocol a = "compound")
  ∧ previous_data default_manager !! "compound" = None
  ∧ snd (check_alerts 0%Z [snapshot "compound" (Some 100%Q) None None] default_manager)
      = Ok []
  ∧ previous_data
      (fst (check_alerts 0%Z [snapshot "compound" (Some 100%Q) None None]
              default_manager)) !! "compound" = None
  ∧ snd (check_alerts 0%Z
           [nameless None (Some 7%Q) None; snapshot "compound" (Some 100%Q) None None]
           (manager 5 10 1)) = Raise (KeyError "name")
  ∧ previous_data
      (fst (check_alerts 0%Z
              [nameless None (Some 7%Q) None;
               snapshot "compound" (Some 100%Q) None None]
              (manager 5 10 1))) !! "compound" = None.
Proof.
  split; [vm_compute; reflexivity|]. split.
  { eexists _, _. split; vm_compute; reflexivity. }
  repeat split; vm_compute; reflexivity.
Qed.

(** ** Calling twice with the same batch *)

Section SameBatch.

Variable now : Timestamp.
Variable s : AlertManager.
Hypothesis price_positive : (0 < price_threshold s)%Q.
Hypothesis tvl_positive : (0 < tvl_threshold s)%Q.
Hypothesis apy_positive : (0 < apy_threshold s)%Q.

Lemma zero_delta_below (d thr : Q) :
  (d == 0)%Q → (0 < thr)%Q → ge (Qabs d) thr = false.
Proof. intros Hd Hthr. apply ge_false. rewrite Hd. exact Hthr. Qed.

(** A snapshot compared with itself fires nothing. *)
Lemma _check_price_change_same n d : _check_price_change now s n d d = Ok None.
Proof.
  destruct (truthy_cases (price d) (price d)) as [H|(p & c & Hp & Hc & Hp0 & Hc0)].
  { by apply _check_price_change_falsy. }
  assert (c = p) as -> by congruence.
  rewrite (_check_price_change_eq _ _ _ _ _ p p) by done. cbv zeta.
  rewrite zero_delta_below; [done| |done]. by field.
Qed.

Lemma _check_tvl_change_same n d : _check_tvl_change now s n d d = Ok None.
Proof.
  destruct (truthy_cases (tvl d) (tvl d)) as [H|(p & c & Hp & Hc & Hp0 & Hc0)].
  { by apply _check_tvl_change_falsy. }
  assert (c = p) as -> by congruence.
  rewrite (_check_tvl_change_eq _ _ _ _ _ p p) by done. cbv zeta.
  rewrite zero_delta_below; [done| |done]. by field.
Qed.

Lemma _check_apy_change_same n d : _check_apy_change now s n d d = Ok None.
Proof.
  destruct (truthy_cases (apy d) (apy d)) as [H|(p & c & Hp & Hc & Hp0 & Hc0)].
  { by apply _check_apy_change_falsy. }
  assert (c = p) as -> by congruence.
  rewrite (_check_apy_change_eq _ _ _ _ _ p p) by done. cbv zeta.
  rewrite zero_delta_below; [done| |done]. ring.
Qed.

End SameBatch.

(** The first loop over a batch whose every entry is its own baseline
    changes nothing and appends nothing. *)
Lemma first_loop_same now batch : ∀ acc s,
  (0 < price_threshold s)%Q → (0 < tvl_threshold s)%Q → (0 < apy_threshold s)%Q →
  Forall (λ d, ∃ n, name d = Some n ∧ previous_data s !! n = Some d) batch →
  for_each batch (check_protocol now) acc s = (s, Ok acc).
Proof.
  induction batch as [|d t IH]; intros acc s Hp Ht Ha Hall; [done|].
  apply Forall_cons in Hall as [(n & Hn & Hm) Hall].
  simpl. unfold bind at 1.
  assert (check_protocol now d acc s = (s, Ok acc)) as ->; [|by apply IH].
  unfold check_protocol, bind, lift, get, getitem_name, ret. rewrite Hn, Hm.
  rewrite _check_price_change_same, _check_tvl_change_same, _check_apy_change_same
    by done.
  done.
Qed.

(** C9, as the code has it.  When the three thresholds are strictly
    positive and the batch has named entries with pairwise distinct names,
    [check_alerts] called a second time with the same batch returns no
    alert: on an enabled manager the first call has made every entry of the
    batch the baseline of its protocol, so every delta of the second call
    is zero; the second call leaves the manager as the first one left it. *)
Theorem same_batch_twice_no_alerts now1 now2 self batch :
  (0 < price_threshold self)%Q → (0 < tvl_threshold self)%Q →
  (0 < apy_threshold self)%Q →
  Forall (λ d, is_Some (name d)) batch →
  NoDup (names batch) →
  ∃ self1 alerts1,
    check_alerts now1 batch self = (self1, Ok alerts1)
    ∧ (enabled self = true →
       ∀ d n, d ∈ batch → name d = Some n → previous_data self1 !! n = Some d)
    ∧ check_alerts now2 batch self1 = (self1, Ok []).
Proof.
  intros Hp Ht Ha Hall Hnd. destruct (enabled self) eqn:Hen.
  - destruct (check_alerts_ok now1 batch self Hen Hall) as (alerts1 & -> & _).
    eexists _, alerts1. split; [done|].
    assert (Hrec : ∀ d n, d ∈ batch → name d = Some n →
              record_all (previous_data self) batch !! n = Some d).
    { intros d n Hd Hn. by apply record_all_lookup_entry. }
    split; [by intros _|].
    unfold check_alerts, bind at 1, get. simpl. rewrite Hen. simpl.
    unfold bind at 1. rewrite first_loop_same; try done.
    + unfold bind. rewrite second_loop_ok by done. unfold ret.
      rewrite set_previous_data_twice. f_equal.
      apply set_previous_data_ext. unfold compose.
      apply record_all_agree. intros k Hk. by apply record_all_lookup_other.
    + apply Forall_forall. intros d Hd.
      rewrite Forall_forall in Hall. destruct (Hall d Hd) as [n Hn].
      exists n. split; [done|]. by apply Hrec.
  - rewrite !check_alerts_disabled by done.
    eexists _, _. split; [done|]. split; [done|].
    by rewrite check_alerts_disabled.
Qed.

(** C9 fails as stated: with the price threshold configured to 0, the
    second call with the same one-entry batch returns a price alert (the
    delta 0 is not below the threshold 0). *)
Lemma zero_threshold_same_batch_alerts :
  ∃ a,
    snd (check_alerts 1%Z [snapshot "aave" (Some 100%Q) None None]
           (fst (check_alerts 0%Z [snapshot "aave" (Some 100%Q) None None]
                   (manager 0 10 1)))) = Ok [a]
    ∧ alert_type a = type_price ∧ protocol a = "aave".
Proof. eexists. split; [vm_compute; reflexivity|]. by split. Qed.

Lemma same_batch_twice_no_alerts_witness :
  ∃ self1 alerts1,
    check_alerts 0%Z
      [snapshot "aave" (Some 100%Q) None None; snapshot "lido" None (Some 5%Q) None]
      (manager 5 10 1) = (self1, Ok alerts1)
    ∧ (enabled (manager 5 10 1) = true →
       ∀ d n,
         d ∈ [snapshot "aave" (Some 100%Q) None None;
              snapshot "lido" None (Some 5%Q) None] →
         name d = Some n → previous_data self1 !! n = Some d)
    ∧ check_alerts 1%Z
        [snapshot "aave" (Some 100%Q) None None; snapshot "lido" None (Some 5%Q) None]
        self1 = (self1, Ok []).
Proof.
  apply (same_batch_twice_no_alerts 0%Z 1%Z (manager 5 10 1)
           [snapshot "aave" (Some 100%Q) None None; snapshot "lido" None (Some 5%Q) None]).
  - reflexivity.
  - reflexivity.
  - reflexivity.
  - repeat constructor; by eexists.
  - apply (bool_decide_unpack _). vm_compute. reflexivity.
Defined.

(** ** The webhook channel *)

Section Webhook.

Variable webhook : nat → Embed → PostOutcome.

Lemma add_posts_nil w : add_posts w [] = w.
Proof. destruct w. unfold add_posts. simpl. by rewrite app_nil_r. Qed.

Lemma add_posts_app w l1 l2 : add_posts (add_posts w l1) l2 = add_posts w (l1 ++ l2).
Proof. unfold add_posts. simpl. by rewrite app_assoc. Qed.

Lemma post_ok_Response c : post_ok (Response c) = true → raise_for_status c = Ok tt.
Proof.
  unfold post_ok, raise_for_status.
  by destruct ((400 <=? c)%Z && (c <? 600)%Z).
Qed.

(** One successful call, one failing call. *)
Lemma post_alert_ok a w :
  post_ok (webhook (length (webhook_posts w)) (make_embed a)) = true →
  post_alert webhook a tt w = (add_posts w [make_embed a], Ok tt).
Proof.
  intros H. unfold post_alert, bind, requests_post, lift.
  destruct (webhook _ _) as [c|]; [|done].
  by rewrite post_ok_Response.
Qed.

Lemma post_alert_fail a w :
  post_ok (webhook (length (webhook_posts w)) (make_embed a)) = false →
  ∃ e, post_alert webhook a tt w = (add_posts w [make_embed a], Raise e).
Proof.
  intros H. unfold post_alert, bind, requests_post, lift.
  destruct (webhook _ _) as [c|]; [|by eexists].
  unfold post_ok in H. unfold raise_for_status.
  destruct ((400 <=? c)%Z && (c <? 600)%Z); [by eexists | done].
Qed.

(** The loop when every call succeeds: one call per alert, in order. *)
Lemma post_loop_ok alerts : ∀ w,
  all_posts_ok webhook (length (webhook_posts w)) alerts = true →
  for_each alerts (post_alert webhook) tt w
    = (add_posts w (map make_embed alerts), Ok tt).
Proof.
  induction alerts as [|a t IH]; intros w H.
  - simpl. unfold ret. by rewrite add_posts_nil.
  - simpl in H. apply andb_true_iff in H as [Ha Ht].
    simpl. unfold bind. rewrite post_alert_ok by done.
    rewrite IH.
    + by rewrite add_posts_app.
    + simpl. rewrite length_app. simpl. by rewrite Nat.add_1_r.
Qed.

(** The loop when a call fails: the exception leaves the loop, the alerts
    after the failing one get no call. *)
Lemma post_loop_fail pre a post w :
  all_posts_ok webhook (length (webhook_posts w)) pre = true →
  post_ok (webhook (length (webhook_posts w) + length pre) (make_embed a)) = false →
  ∃ e, for_each (pre ++ a :: post) (post_alert webhook) tt w
         = (add_posts w (map make_embed (pre ++ [a])), Raise e).
Proof.
  intros Hpre Ha. rewrite for_each_app. unfold bind.
  rewrite post_loop_ok by done. simpl. unfold bind.
  destruct (post_alert_fail a (add_posts w (map make_embed pre))) as [e ->].
  { simpl. by rewrite length_app, length_map. }
  exists e. by rewrite add_posts_app, map_app.
Qed.

(** A batch with a failing call splits at the first one. *)
Lemma all_posts_ok_false alerts : ∀ k,
  all_posts_ok webhook k alerts = false →
  ∃ pre a post,
    alerts = pre ++ a :: post
    ∧ all_posts_ok webhook k pre = true
    ∧ post_ok (webhook (k + length pre) (make_embed a)) = false.
Proof.
  induction alerts as [|a t IH]; intros k H; [done|].
  simpl in H. destruct (post_ok (webhook k (make_embed a))) eqn:Ha.
  - simpl in H. destruct (IH _ H) as (pre & b & post & -> & Hpre & Hb).
    exists (a :: pre), b, post. split; [done|]. split.
    + simpl. by rewrite Ha.
    + simpl. by rewrite <- Nat.add_succ_comm.
  - exists [], a, t. split; [done|]. split; [done|]. by rewrite Nat.add_0_r.
Qed.

Lemma _send_discord_alerts_ok self alerts w :
  all_posts_ok webhook (length (webhook_posts w)) alerts = true →
  _send_discord_alerts webhook self alerts w
    = (add_posts w (map make_embed alerts), Ok true).
Proof.
  intros H. unfold _send_discord_alerts, try_except, bind, ret.
  by rewrite post_loop_ok.
Qed.

Lemma _send_discord_alerts_fail self pre a post w :
  all_posts_ok webhook (length (webhook_posts w)) pre = true →
  post_ok (webhook (length (webhook_posts w) + length pre) (make_embed a)) = false →
  ∃ e, _send_discord_alerts webhook self (pre ++ a :: post) w
         = ({| stdout := stdout w ++ [line_discord_error e];
               webhook_posts := webhook_posts w ++ map make_embed (pre ++ [a]);
               smtp_sent := smtp_sent w |}, Ok false).
Proof.
  intros Hpre Ha. unfold _send_discord_alerts, try_except, bind.
  destruct (post_loop_fail pre a post w Hpre Ha) as [e ->].
  by exists e.
Qed.

(** The channel never raises; it answers whether every call succeeded. *)
Lemma _send_discord_alerts_result self alerts w :
  ∃ w', _send_discord_alerts webhook self alerts w
          = (w', Ok (all_posts_ok webhook (length (webhook_posts w)) alerts))
        ∧ smtp_sent w' = smtp_sent w.
Proof.
  destruct (all_posts_ok webhook (length (webhook_posts w)) alerts) eqn:H.
  - rewrite _send_discord_alerts_ok by done. by eexists.
  - apply all_posts_ok_false in H as (pre & a & post & -> & Hpre & Ha).
    destruct (_send_discord_alerts_fail self pre a post w Hpre Ha) as [e ->].
    by eexists.
Qed.

End Webhook.

(** C3, as the code has it.  The webhook channel makes its calls one alert
    after the other.  When every call succeeds it has made one call per
    alert, in order, and answers [True].  A failing call ends the
    delivery: the alerts after it get no call, and the channel answers
    [False] without raising. *)
Theorem webhook_delivery_stops_at_first_failure webhook self alerts w :
  (all_posts_ok webhook (length (webhook_posts w)) alerts = true →
     snd (_send_discord_alerts webhook self alerts w) = Ok true
     ∧ webhook_posts (fst (_send_discord_alerts webhook self alerts w))
         = webhook_posts w ++ map make_embed alerts)
  ∧ (∀ pre a post,
       alerts = pre ++ a :: post →
       all_posts_ok webhook (length (webhook_posts w)) pre = true →
       post_ok (webhook (length (webhook_posts w) + length pre) (make_embed a)) = false →
       snd (_send_discord_alerts webhook self alerts w) = Ok false
       ∧ webhook_posts (fst (_send_discord_alerts webhook self alerts w))
           = webhook_posts w ++ map make_embed (pre ++ [a])).
Proof.
  split.
  - intros H. by rewrite _send_discord_alerts_ok.
  - intros pre a post -> Hpre Ha.
    by destruct (_send_discord_alerts_fail webhook self pre a post w Hpre Ha) as [e ->].
Qed.

Lemma webhook_delivery_stops_at_first_failure_witness :
  snd (_send_discord_alerts first_call_fails webhook_manager
         [sample_price_alert; sample_price_alert] empty_world) = Ok false
  ∧ webhook_posts (fst (_send_discord_alerts first_call_fails webhook_manager
                          [sample_price_alert; sample_price_alert] empty_world))
      = webhook_posts empty_world ++ map make_embed ([] ++ [sample_price_alert]).
Proof.
  apply (proj2 (webhook_delivery_stops_at_first_failure first_call_fails webhook_manager
                  [sample_price_alert; sample_price_alert] empty_world)
           [] sample_price_alert [sample_price_alert]);
    reflexivity.
Defined.

(** C3 fails as stated: of a batch of two alerts whose first call is
    rejected, only one call is made; the second alert gets no call, although
    the endpoint would have accepted it. *)
Lemma failed_call_aborts_remaining_calls :
  length (webhook_posts
            (fst (_send_discord_alerts first_call_fails webhook_manager
                    [sample_price_alert; sample_price_alert] empty_world))) = 1%nat
  ∧ post_ok (first_call_fails 1 (make_embed sample_price_alert)) = true
  ∧ snd (_send_discord_alerts first_call_fails webhook_manager
           [sample_price_alert; sample_price_alert] empty_world) = Ok false.
Proof. repeat split. Qed.

(** ** The console and email channels *)

Lemma console_loop alerts : ∀ w,
  for_each alerts (λ alert _, print (line_alert alert)) tt w
    = ({| stdout := stdout w ++ map line_alert alerts;
          webhook_posts := webhook_posts w;
          smtp_sent := smtp_sent w |}, Ok tt).
Proof.
  induction alerts as [|a t IH]; intros w.
  - simpl. unfold ret. destruct w. simpl. by rewrite app_nil_r.
  - simpl. unfold bind, print at 1, modify. rewrite IH. simpl.
    by rewrite <- app_assoc.
Qed.

Lemma _send_console_alerts_result alerts w :
  ∃ w', _send_console_alerts alerts w = (w', Ok true)
        ∧ webhook_posts w' = webhook_posts w
        ∧ smtp_sent w' = smtp_sent w.
Proof.
  unfold _send_console_alerts, bind, print at 1, modify.
  rewrite console_loop. unfold print, modify, ret. by eexists.
Qed.

Lemma _send_email_alerts_result now smtp_failure self alerts w :
  ∃ w', _send_email_alerts now smtp_failure self alerts w
        = (w', Ok (nonempty (email_to self) && nonempty (email_from self)
                   && nonempty (smtp_username self) && nonempty (smtp_password self)
                   && match smtp_failure (make_mail now self alerts) with
                      | None => true
                      | Some _ => false
                      end)).
Proof.
  unfold _send_email_alerts, try_except.
  destruct (nonempty (email_to self) && nonempty (email_from self)
            && nonempty (smtp_username self) && nonempty (smtp_password self)); simpl.
  - unfold bind, smtp_session.
    destruct (smtp_failure (make_mail now self alerts)); by eexists.
  - by eexists.
Qed.

(** ** Delivered count *)

Lemma send_alerts_count now webhook smtp_failure self alerts w :
  snd (send_alerts now webhook smtp_failure self alerts w)
    = Ok (length alerts
          * (Nat.b2n (console_enabled self)
             + Nat.b2n (webhook_delivers webhook self alerts w)
             + Nat.b2n (email_delivers now smtp_failure self alerts)))%nat.
Proof.
  destruct alerts as [|a t]; [done|].
  unfold send_alerts. generalize (a :: t). clear a t. intros alerts.
  unfold console_enabled, webhook_delivers, webhook_enabled, email_delivers, email_enabled.
  destruct (default true (cfg_console (alerts_config self)));
    destruct (default false (cfg_discord_webhook (alerts_config self)));
    destruct (nonempty (discord_webhook_url self));
    destruct (default false (cfg_email (alerts_config self)));
    destruct (nonempty (email_to self)) eqn:Hto;
    unfold bind, ret; cbn [andb];
    repeat first
      [ match goal with
        | |- context [_send_console_alerts ?al ?w0] =>
            let Hp := fresh "Hp" in
            destruct (_send_console_alerts_result al w0) as (? & -> & Hp & _)
        | |- context [_send_discord_alerts ?wh ?s ?al ?w0] =>
            destruct (_send_discord_alerts_result wh s al w0) as (? & -> & _)
        | |- context [_send_email_alerts ?t ?f ?s ?al ?w0] =>
            destruct (_send_email_alerts_result t f s al w0) as (? & ->)
        end
      | match goal with
        | Hp : webhook_posts _ = webhook_posts w |- _ => rewrite Hp; clear Hp
        end ];
    rewrite ?Hto; cbn [andb];
    repeat match goal with
           | |- context [if ?b then _ else _] => destruct b
           | |- context [match ?o with Some _ => _ | None => _ end] => destruct o
           end;
    cbn [snd Nat.b2n andb]; f_equal; lia.
Qed.

(** C6. Dispatching a batch of N alerts returns, without raising, N times
    the number of channels that are enabled and delivered the batch
    completely (console, webhook, email; a disabled or failed channel adds
    nothing).  With the console enabled, the webhook enabled but every
    webhook call failing, and the email channel not enabled, it returns
    exactly N. *)
Theorem delivered_count_per_successful_channel now webhook smtp_failure self alerts w :
  snd (send_alerts now webhook smtp_failure self alerts w)
    = Ok (length alerts
          * (Nat.b2n (console_enabled self)
             + Nat.b2n (webhook_delivers webhook self alerts w)
             + Nat.b2n (email_delivers now smtp_failure self alerts)))%nat
  ∧ (console_enabled self = true →
     webhook_enabled self = true →
     (∀ k embed, post_ok (webhook k embed) = false) →
     email_enabled self = false →
     snd (send_alerts now webhook smtp_failure self alerts w) = Ok (length alerts)).
Proof.
  split; [apply send_alerts_count|].
  intros Hconsole Hwebhook Hfail Hemail. rewrite send_alerts_count.
  unfold webhook_delivers, email_delivers. rewrite Hconsole, Hwebhook, Hemail.
  destruct alerts as [|a t]; [done|].
  cbn [all_posts_ok]. rewrite Hfail. cbn [andb Nat.b2n]. f_equal. lia.
Qed.

Lemma delivered_count_per_successful_channel_witness :
  snd (send_alerts 0%Z every_call_fails smtp_works webhook_manager
         [sample_price_alert; sample_price_alert] empty_world)
    = Ok (length [sample_price_alert; sample_price_alert]).
Proof.
  apply (proj2 (delivered_count_per_successful_channel 0%Z every_call_fails smtp_works
                  webhook_manager [sample_price_alert; sample_price_alert] empty_world)).
  - reflexivity.
  - reflexivity.
  - intros k embed. reflexivity.
  - reflexivity.
Defined.

(** ** Rate-limit responses of CoinGecko *)

Lemma cooldowns_snoc tr e :
  CoinGecko.cooldowns (tr ++ [e])
    = (CoinGecko.cooldowns tr + Nat.b2n (CoinGecko.is_cooldown e))%nat.
Proof.
  unfold CoinGecko.cooldowns. rewrite List.filter_app, length_app. simpl.
  by destruct (CoinGecko.is_cooldown e).
Qed.

Lemma gets_snoc tr e :
  CoinGecko.gets (tr ++ [e]) = (CoinGecko.gets tr + Nat.b2n (CoinGecko.is_get e))%nat.
Proof.
  unfold CoinGecko.gets. rewrite List.filter_app, length_app. simpl.
  by destruct (CoinGecko.is_get e).
Qed.

Section RateLimit.

Import CoinGecko.

Variable Json : Type.
Variable upstream : nat → string → GetOutcome Json.
Variable latency : nat → Q.
Variable endpoint : string.

(** One call whose GET is answered 429: a cooldown, then the nested call
    from a state with one more request and one more cooldown. *)
Lemma request_429 f s body :
  upstream (requests_sent s) (base_url (self s) +:+ endpoint) = GetResponse 429 body →
  ∃ s1,
    base_url (self s1) = base_url (self s)
    ∧ requests_sent s1 = S (requests_sent s)
    ∧ cooldowns (trace s1) = S (cooldowns (trace s))
    ∧ gets (trace s1) = S (gets (trace s))
    ∧ _make_request Json upstream latency (S f) endpoint s
        = try_except_RequestException (_make_request Json upstream latency f endpoint)
            (λ e, log (ev_error e) ;;; ret None) s1.
Proof.
  intros H. cbn [_make_request].
  unfold bind at 1, time_time at 1. unfold bind at 1, get at 1. unfold bind at 1.
  destruct (lt _ _).
  - unfold time_sleep at 1, modify at 1.
    unfold try_except_RequestException at 1.
    unfold bind at 1, session_get at 1. cbn [self requests_sent base_url].
    rewrite H.
    unfold bind at 1, time_time at 1. unfold bind at 1, set_last_request_time, modify at 1.
    cbn [fst snd Z.eqb Pos.eqb]. unfold bind at 1, log at 1, modify at 1.
    unfold bind at 1, time_sleep at 1, modify at 1.
    cbn [self clock requests_sent trace base_url].
    eexists. split; [|split; [|split; [|split; [|reflexivity]]]];
      cbn [self clock requests_sent trace base_url]; try done.
    + rewrite !cooldowns_snoc. simpl. lia.
    + rewrite !gets_snoc. simpl. lia.
  - unfold ret at 1.
    unfold try_except_RequestException at 1.
    unfold bind at 1, session_get at 1. cbn [self requests_sent base_url].
    rewrite H.
    unfold bind at 1, time_time at 1. unfold bind at 1, set_last_request_time, modify at 1.
    cbn [fst snd Z.eqb Pos.eqb]. unfold bind at 1, log at 1, modify at 1.
    unfold bind at 1, time_sleep at 1, modify at 1.
    cbn [self clock requests_sent trace base_url].
    eexists. split; [|split; [|split; [|split; [|reflexivity]]]];
      cbn [self clock requests_sent trace base_url]; try done.
    + rewrite !cooldowns_snoc. simpl. lia.
    + rewrite !gets_snoc. simpl. lia.
Qed.

(** One call whose GET has any other outcome: no cooldown, no nested
    call; the call returns the body, or [None] after a failure. *)
Lemma request_final f s :
  is_429 (upstream (requests_sent s) (base_url (self s) +:+ endpoint)) = false →
  ∃ s1,
    _make_request Json upstream latency (S f) endpoint s
      = (s1, Ok (final_answer
                   (upstream (requests_sent s) (base_url (self s) +:+ endpoint))))
    ∧ cooldowns (trace s1) = cooldowns (trace s)
    ∧ gets (trace s1) = S (gets (trace s)).
Proof.
  intros H. cbn [_make_request].
  unfold bind at 1, time_time at 1. unfold bind at 1, get at 1. unfold bind at 1.
  destruct (lt _ _).
  - unfold time_sleep at 1, modify at 1.
    unfold try_except_RequestException at 1.
    unfold bind at 1, session_get at 1. cbn [self requests_sent base_url].
    destruct (upstream _ _) as [c body|].
    + unfold bind at 1, time_time at 1. unfold bind at 1, set_last_request_time, modify at 1.
      cbn [fst snd]. cbn [is_429] in H. rewrite H.
      unfold bind at 1, lift. cbn [final_answer].
      destruct (raise_for_status c) as [[]|e] eqn:Hc.
      * unfold ret. eexists. split; [reflexivity|].
        cbn [trace]. rewrite !cooldowns_snoc, !gets_snoc. simpl. lia.
      * assert (is_RequestException e = true) as ->.
        { unfold raise_for_status in Hc.
          destruct ((400 <=? c)%Z && (c <? 600)%Z); by inversion Hc. }
        unfold bind, log, modify, ret. eexists. split; [reflexivity|].
        cbn [trace]. rewrite !cooldowns_snoc, !gets_snoc. simpl. lia.
    + cbn [is_RequestException final_answer].
      unfold bind, log, modify, ret. eexists. split; [reflexivity|].
      cbn [trace]. rewrite !cooldowns_snoc, !gets_snoc. simpl. lia.
  - unfold ret at 1.
    unfold try_except_RequestException at 1.
    unfold bind at 1, session_get at 1. cbn [self requests_sent base_url].
    destruct (upstream _ _) as [c body|].
    + unfold bind at 1, time_time at 1. unfold bind at 1, set_last_request_time, modify at 1.
      cbn [fst snd]. cbn [is_429] in H. rewrite H.
      unfold bind at 1, lift. cbn [final_answer].
      destruct (raise_for_status c) as [[]|e] eqn:Hc.
      * unfold ret. eexists. split; [reflexivity|].
        cbn [trace]. rewrite !cooldowns_snoc, !gets_snoc. simpl. lia.
      * assert (is_RequestException e = true) as ->.
        { unfold raise_for_status in Hc.
          destruct ((400 <=? c)%Z && (c <? 600)%Z); by inversion Hc. }
        unfold bind, log, modify, ret. eexists. split; [reflexivity|].
        cbn [trace]. rewrite !cooldowns_snoc, !gets_snoc. simpl. lia.
    + cbn [is_RequestException final_answer].
      unfold bind, log, modify, ret. eexists. split; [reflexivity|].
      cbn [trace]. rewrite !cooldowns_snoc, !gets_snoc. simpl. lia.
Qed.

Lemma is_429_true (o : GetOutcome Json) :
  is_429 o = true → ∃ body, o = GetResponse 429 body.
Proof.
  destruct o as [c body|]; [|done]. simpl. intros H.
  apply Z.eqb_eq in H as ->. by exists body.
Qed.

(** After [k] consecutive 429 responses and one other outcome, within the
    recursion limit: [k] cooldowns, [k + 1] requests, and the call returns. *)
Lemma request_after_429s k : ∀ f s,
  (k < f)%nat →
  (∀ i, (i < k)%nat →
     is_429 (upstream (requests_sent s + i) (base_url (self s) +:+ endpoint)) = true) →
  is_429 (upstream (requests_sent s + k) (base_url (self s) +:+ endpoint)) = false →
  ∃ s',
    _make_request Json upstream latency f endpoint s
      = (s', Ok (final_answer
                   (upstream (requests_sent s + k) (base_url (self s) +:+ endpoint))))
    ∧ cooldowns (trace s') = (cooldowns (trace s) + k)%nat
    ∧ gets (trace s') = (gets (trace s) + S k)%nat.
Proof.
  induction k as [|k IH]; intros f s Hf H429 Hlast.
  - destruct f as [|f]; [lia|]. rewrite Nat.add_0_r in *.
    destruct (request_final f s Hlast) as (s1 & -> & Hc & Hg).
    exists s1. split; [done|]. split; lia.
  - destruct f as [|f]; [lia|].
    destruct (is_429_true _ (H429 0%nat ltac:(lia))) as [body Hfirst].
    rewrite Nat.add_0_r in Hfirst.
    destruct (request_429 f s body Hfirst) as (s1 & Hurl & Hsent & Hc & Hg & ->).
    destruct (IH f s1) as (s' & Hrun & Hc' & Hg').
    + lia.
    + intros i Hi. rewrite Hurl, Hsent.
      replace (S (requests_sent s) + i)%nat with (requests_sent s + S i)%nat by lia.
      apply H429. lia.
    + rewrite Hurl, Hsent.
      by replace (S (requests_sent s) + k)%nat with (requests_sent s + S k)%nat by lia.
    + unfold try_except_RequestException. rewrite Hrun.
      rewrite Hurl, Hsent.
      replace (S (requests_sent s) + k)%nat with (requests_sent s + S k)%nat by lia.
      exists s'. split; [done|]. split; lia.
Qed.

(** When every response is 429 the call retries until the recursion limit
    is reached: as many cooldowns and requests as nested calls allowed. *)
Lemma request_always_429 f : ∀ s,
  (∀ i, is_429 (upstream i (base_url (self s) +:+ endpoint)) = true) →
  ∃ s',
    _make_request Json upstream latency f endpoint s = (s', Raise RecursionError)
    ∧ cooldowns (trace s') = (cooldowns (trace s) + f)%nat
    ∧ gets (trace s') = (gets (trace s) + f)%nat.
Proof.
  induction f as [|f IH]; intros s H.
  - exists s. split; [done|]. split; lia.
  - destruct (is_429_true _ (H (requests_sent s))) as [body Hfirst].
    destruct (request_429 f s body Hfirst) as (s1 & Hurl & Hsent & Hc & Hg & ->).
    destruct (IH s1) as (s' & Hrun & Hc' & Hg').
    { intros i. rewrite Hurl. apply H. }
    unfold try_except_RequestException. rewrite Hrun.
    exists s'. split; [done|]. split; lia.
Qed.

End RateLimit.

(** *** The cooldown itself *)

Lemma cooldowns_app (a b : list CoinGecko.Event) :
  CoinGecko.cooldowns (a ++ b) = (CoinGecko.cooldowns a + CoinGecko.cooldowns b)%nat.
Proof. unfold CoinGecko.cooldowns. by rewrite List.filter_app, length_app. Qed.

Lemma gets_app (a b : list CoinGecko.Event) :
  CoinGecko.gets (a ++ b) = (CoinGecko.gets a + CoinGecko.gets b)%nat.
Proof. unfold CoinGecko.gets. by rewrite List.filter_app, length_app. Qed.

(** The events of one call answered 429, possibly after the wait of the
    rate limiter, hold one 60-second cooldown. *)
Lemma cooldown_waits_429 (pre rest : list CoinGecko.Event) (url : string) :
  pre = [] ∨ (∃ d, pre = [CoinGecko.ev_sleep d]) →
  cooldown_waits
    (pre ++ [CoinGecko.ev_get url; CoinGecko.ev_warn_rate_limit; CoinGecko.ev_sleep 60]
         ++ rest)
  = S (cooldown_waits rest).
Proof. intros [->|[d ->]]; reflexivity. Qed.

Section Cooldown.

Import CoinGecko.

Variable Json : Type.
Variable upstream : nat → string → GetOutcome Json.
Variable latency : nat → Q.
Variable endpoint : string.

(** One call whose GET is answered 429 adds to the trace: the wait of the
    rate limiter if there is one, the GET, the warning and the sleep of 60
    seconds; the nested call starts after them. *)
Lemma request_429_trace f s body :
  upstream (requests_sent s) (base_url (self s) +:+ endpoint) = GetResponse 429 body →
  ∃ s1 pre,
    base_url (self s1) = base_url (self s)
    ∧ requests_sent s1 = S (requests_sent s)
    ∧ trace s1 = trace s ++ pre ++ [ev_get (base_url (self s) +:+ endpoint);
                                    ev_warn_rate_limit; ev_sleep 60]
    ∧ (pre = [] ∨ ∃ d, pre = [ev_sleep d])
    ∧ _make_request Json upstream latency (S f) endpoint s
        = try_except_RequestException (_make_request Json upstream latency f endpoint)
            (λ e, log (ev_error e) ;;; ret None) s1.
Proof.
  intros H. cbn [_make_request].
  unfold bind at 1, time_time at 1. unfold bind at 1, get at 1. unfold bind at 1.
  destruct (lt _ _).
  - unfold time_sleep at 1, modify at 1.
    unfold try_except_RequestException at 1.
    unfold bind at 1, session_get at 1. cbn [self requests_sent base_url].
    rewrite H.
    unfold bind at 1, time_time at 1. unfold bind at 1, set_last_request_time, modify at 1.
    cbn [fst snd Z.eqb Pos.eqb]. unfold bind at 1, log at 1, modify at 1.
    unfold bind at 1, time_sleep at 1, modify at 1.
    cbn [self clock requests_sent trace base_url].
    eexists.
    exists [ev_sleep (min_request_interval (self s)
                      - (clock s - last_request_time (self s)))%Q].
    split; [|split; [|split; [|split; [|reflexivity]]]];
      cbn [self clock requests_sent trace base_url]; try done.
    + rewrite <- !app_assoc. reflexivity.
    + right. eexists. reflexivity.
  - unfold ret at 1.
    unfold try_except_RequestException at 1.
    unfold bind at 1, session_get at 1. cbn [self requests_sent base_url].
    rewrite H.
    unfold bind at 1, time_time at 1. unfold bind at 1, set_last_request_time, modify at 1.
    cbn [fst snd Z.eqb Pos.eqb]. unfold bind at 1, log at 1, modify at 1.
    unfold bind at 1, time_sleep at 1, modify at 1.
    cbn [self clock requests_sent trace base_url].
    eexists. exists [].
    split; [|split; [|split; [|split; [|reflexivity]]]];
      cbn [self clock requests_sent trace base_url]; try done.
    + rewrite <- !app_assoc. reflexivity.
    + by left.
Qed.

(** One call whose GET has any other outcome adds one GET, no warning and
    no cooldown to the trace. *)
Lemma request_final_trace f s :
  is_429 (upstream (requests_sent s) (base_url (self s) +:+ endpoint)) = false →
  ∃ s1 evs,
    _make_request Json upstream latency (S f) endpoint s
      = (s1, Ok (final_answer
                   (upstream (requests_sent s) (base_url (self s) +:+ endpoint))))
    ∧ trace s1 = trace s ++ evs
    ∧ cooldown_waits evs = 0%nat
    ∧ cooldowns evs = 0%nat
    ∧ gets evs = 1%nat.
Proof.
  intros H. cbn [_make_request].
  unfold bind at 1, time_time at 1. unfold bind at 1, get at 1. unfold bind at 1.
  destruct (lt _ _).
  - unfold time_sleep at 1, modify at 1.
    unfold try_except_RequestException at 1.
    unfold bind at 1, session_get at 1. cbn [self requests_sent base_url].
    destruct (upstream _ _) as [c body|].
    + unfold bind at 1, time_time at 1. unfold bind at 1, set_last_request_time, modify at 1.
      cbn [fst snd]. cbn [is_429] in H. rewrite H.
      unfold bind at 1, lift. cbn [final_answer].
      destruct (raise_for_status c) as [[]|e] eqn:Hc.
      * unfold ret. eexists. eexists. split; [reflexivity|].
        cbn [trace]. split; [rewrite <- !app_assoc; reflexivity|]. by repeat split.
      * assert (is_RequestException e = true) as ->.
        { unfold raise_for_status in Hc.
          destruct ((400 <=? c)%Z && (c <? 600)%Z); by inversion Hc. }
        unfold bind, log, modify, ret. eexists. eexists. split; [reflexivity|].
        cbn [trace]. split; [rewrite <- !app_assoc; reflexivity|]. by repeat split.
    + cbn [is_RequestException final_answer].
      unfold bind, log, modify, ret. eexists. eexists. split; [reflexivity|].
      cbn [trace]. split; [rewrite <- !app_assoc; reflexivity|]. by repeat split.
  - unfold ret at 1.
    unfold try_except_RequestException at 1.
    unfold bind at 1, session_get at 1. cbn [self requests_sent base_url].
    destruct (upstream _ _) as [c body|].
    + unfold bind at 1, time_time at 1. unfold bind at 1, set_last_request_time, modify at 1.
      cbn [fst snd]. cbn [is_429] in H. rewrite H.
      unfold bind at 1, lift. cbn [final_answer].
      destruct (raise_for_status c) as [[]|e] eqn:Hc.
      * unfold ret. eexists. eexists. split; [reflexivity|].
        cbn [trace]. split; [rewrite <- ?app_assoc; reflexivity|]. by repeat split.
      * assert (is_RequestException e = true) as ->.
        { unfold raise_for_status in Hc.
          destruct ((400 <=? c)%Z && (c <? 600)%Z); by inversion Hc. }
        unfold bind, log, modify, ret. eexists. eexists. split; [reflexivity|].
        cbn [trace]. split; [rewrite <- !app_assoc; reflexivity|]. by repeat split.
    + cbn [is_RequestException final_answer].
      unfold bind, log, modify, ret. eexists. eexists. split; [reflexivity|].
      cbn [trace]. split; [rewrite <- !app_assoc; reflexivity|]. by repeat split.
Qed.

(** After [k] consecutive 429 responses and one other outcome, within the
    recursion limit, the call returns and has added to the trace [k]
    60-second cooldowns, [k] warnings and [k + 1] requests. *)
Lemma request_after_429s_trace k : ∀ f s,
  (k < f)%nat →
  (∀ i, (i < k)%nat →
     is_429 (upstream (requests_sent s + i) (base_url (self s) +:+ endpoint)) = true) →
  is_429 (upstream (requests_sent s + k) (base_url (self s) +:+ endpoint)) = false →
  ∃ s' evs,
    _make_request Json upstream latency f endpoint s
      = (s', Ok (final_answer
                   (upstream (requests_sent s + k) (base_url (self s) +:+ endpoint))))
    ∧ trace s' = trace s ++ evs
    ∧ cooldown_waits evs = k
    ∧ cooldowns evs = k
    ∧ gets evs = S k.
Proof.
  induction k as [|k IH]; intros f s Hf H429 Hlast.
  - destruct f as [|f]; [lia|]. rewrite Nat.add_0_r in *.
    destruct (request_final_trace f s Hlast) as (s1 & evs & -> & Htr & Hw & Hc & Hg).
    by exists s1, evs.
  - destruct f as [|f]; [lia|].
    destruct (is_429_true _ _ (H429 0%nat ltac:(lia))) as [body Hfirst].
    rewrite Nat.add_0_r in Hfirst.
    destruct (request_429_trace f s body Hfirst)
      as (s1 & pre & Hurl & Hsent & Htr & Hpre & ->).
    destruct (IH f s1) as (s' & evs & Hrun & Htr' & Hw & Hc & Hg).
    + lia.
    + intros i Hi. rewrite Hurl, Hsent.
      replace (S (requests_sent s) + i)%nat with (requests_sent s + S i)%nat by lia.
      apply H429. lia.
    + rewrite Hurl, Hsent.
      by replace (S (requests_sent s) + k)%nat with (requests_sent s + S k)%nat by lia.
    + unfold try_except_RequestException. rewrite Hrun.
      rewrite Hurl, Hsent.
      replace (S (requests_sent s) + k)%nat with (requests_sent s + S k)%nat by lia.
      exists s', (pre ++ [ev_get (base_url (self s) +:+ endpoint);
                          ev_warn_rate_limit; ev_sleep 60] ++ evs).
      split; [done|]. split.
      { rewrite Htr', Htr. by rewrite <- !app_assoc. }
      split; [by rewrite cooldown_waits_429, Hw|].
      rewrite cooldowns_app, gets_app, (cooldowns_app _ evs), (gets_app _ evs), Hc, Hg.
      destruct Hpre as [->|[d ->]]; by simpl.
Qed.

(** When every response is 429 each nested call adds one 60-second
    cooldown and one request, until the recursion limit is reached. *)
Lemma request_always_429_trace f : ∀ s,
  (∀ i, is_429 (upstream i (base_url (self s) +:+ endpoint)) = true) →
  ∃ s' evs,
    _make_request Json upstream latency f endpoint s = (s', Raise RecursionError)
    ∧ trace s' = trace s ++ evs
    ∧ cooldown_waits evs = f
    ∧ cooldowns evs = f
    ∧ gets evs = f.
Proof.
  induction f as [|f IH]; intros s H.
  - exists s, []. split; [done|]. by rewrite app_nil_r.
  - destruct (is_429_true _ _ (H (requests_sent s))) as [body Hfirst].
    destruct (request_429_trace f s body Hfirst)
      as (s1 & pre & Hurl & Hsent & Htr & Hpre & ->).
    destruct (IH s1) as (s' & evs & Hrun & Htr' & Hw & Hc & Hg).
    { intros i. rewrite Hurl. apply H. }
    unfold try_except_RequestException. rewrite Hrun.
    exists s', (pre ++ [ev_get (base_url (self s) +:+ endpoint);
                        ev_warn_rate_limit; ev_sleep 60] ++ evs).
    split; [done|]. split.
    { rewrite Htr', Htr. by rewrite <- !app_assoc. }
    split; [by rewrite cooldown_waits_429, Hw|].
    rewrite cooldowns_app, gets_app, (cooldowns_app _ evs), (gets_app _ evs), Hc, Hg.
    destruct Hpre as [->|[d ->]]; by simpl.
Qed.

End Cooldown.

(** C4, as the code has it.  Every 429 response makes [_make_request] wait
    60 seconds and send the request again, and the retry is treated like
    the first request: after k consecutive 429 responses followed by any
    other outcome, and within the interpreter's recursion limit, the call
    has made exactly k cooldowns and k + 1 requests and returns (the body,
    or [None] after a failure); each of the k cooldowns is a rate-limit
    warning followed at once by [time.sleep(60)].  The code keeps no retry
    counter: when the upstream answers 429 to every request, the call
    retries, with a 60-second sleep each time, until the recursion limit is
    reached and ends with [RecursionError]. *)
Theorem every_429_response_is_retried (Json : Type)
    (upstream : nat → string → CoinGecko.GetOutcome Json) (latency : nat → Q)
    (endpoint : string) (frames : nat) (s : CoinGecko.State) :
  (∀ k,
     (k < frames)%nat →
     (∀ i, (i < k)%nat →
        is_429 (upstream (CoinGecko.requests_sent s + i)%nat
                  (CoinGecko.base_url (CoinGecko.self s) +:+ endpoint)) = true) →
     is_429 (upstream (CoinGecko.requests_sent s + k)%nat
               (CoinGecko.base_url (CoinGecko.self s) +:+ endpoint)) = false →
     ∃ s',
       CoinGecko._make_request Json upstream latency frames endpoint s
         = (s', Ok (final_answer
                      (upstream (CoinGecko.requests_sent s + k)%nat
                         (CoinGecko.base_url (CoinGecko.self s) +:+ endpoint))))
       ∧ CoinGecko.cooldowns (CoinGecko.trace s')
           = (CoinGecko.cooldowns (CoinGecko.trace s) + k)%nat
       ∧ CoinGecko.gets (CoinGecko.trace s')
           = (CoinGecko.gets (CoinGecko.trace s) + S k)%nat
       ∧ ∃ evs, CoinGecko.trace s' = CoinGecko.trace s ++ evs
                ∧ cooldown_waits evs = k)
  ∧ ((∀ i, is_429 (upstream i (CoinGecko.base_url (CoinGecko.self s) +:+ endpoint)) = true) →
     ∃ s',
       CoinGecko._make_request Json upstream latency frames endpoint s
         = (s', Raise RecursionError)
       ∧ CoinGecko.cooldowns (CoinGecko.trace s')
           = (CoinGecko.cooldowns (CoinGecko.trace s) + frames)%nat
       ∧ CoinGecko.gets (CoinGecko.trace s')
           = (CoinGecko.gets (CoinGecko.trace s) + frames)%nat
       ∧ ∃ evs, CoinGecko.trace s' = CoinGecko.trace s ++ evs
                ∧ cooldown_waits evs = frames).
Proof.
  split.
  - intros k Hk H429 Hlast.
    destruct (request_after_429s_trace Json upstream latency endpoint k frames s
                Hk H429 Hlast) as (s' & evs & Hrun & Htr & Hw & Hc & Hg).
    exists s'. split; [done|]. rewrite Htr, cooldowns_app, gets_app, Hc, Hg.
    split; [done|]. split; [done|]. by exists evs.
  - intros H.
    destruct (request_always_429_trace Json upstream latency endpoint frames s H)
      as (s' & evs & Hrun & Htr & Hw & Hc & Hg).
    exists s'. split; [done|]. rewrite Htr, cooldowns_app, gets_app, Hc, Hg.
    split; [done|]. split; [done|]. by exists evs.
Qed.

Lemma every_429_response_is_retried_witness :
  ∃ s',
    CoinGecko._make_request nat two_429_then_200 no_latency 1000 "/ping" fresh_state
      = (s', Ok (final_answer
                   (two_429_then_200 (CoinGecko.requests_sent fresh_state + 2)%nat
                      (CoinGecko.base_url (CoinGecko.self fresh_state) +:+ "/ping"))))
    ∧ CoinGecko.cooldowns (CoinGecko.trace s')
        = (CoinGecko.cooldowns (CoinGecko.trace fresh_state) + 2)%nat
    ∧ CoinGecko.gets (CoinGecko.trace s')
        = (CoinGecko.gets (CoinGecko.trace fresh_state) + 3)%nat
    ∧ ∃ evs, CoinGecko.trace s' = CoinGecko.trace fresh_state ++ evs
             ∧ cooldown_waits evs = 2%nat.
Proof.
  apply (proj1 (every_429_response_is_retried nat two_429_then_200 no_latency
                  "/ping" 1000 fresh_state) 2%nat).
  - lia.
  - intros [|[|i]] Hi; [reflexivity | reflexivity | lia].
  - reflexivity.
Defined.

(** C4 fails as stated: two 429 responses in a row trigger two 60-second
    cooldowns and two retries of the request, not one; and when every
    response is 429 the number of retries is the number of nested calls the
    interpreter allows (here 50), after which the call raises. *)
Lemma second_429_is_retried_again :
  snd (CoinGecko._make_request nat two_429_then_200 no_latency 1000 "/ping" fresh_state)
    = Ok (Some 7%nat)
  ∧ CoinGecko.cooldowns
      (CoinGecko.trace
         (fst (CoinGecko._make_request nat two_429_then_200 no_latency 1000 "/ping"
                 fresh_state))) = 2%nat
  ∧ cooldown_waits
      (CoinGecko.trace
         (fst (CoinGecko._make_request nat two_429_then_200 no_latency 1000 "/ping"
                 fresh_state))) = 2%nat
  ∧ CoinGecko.gets
      (CoinGecko.trace
         (fst (CoinGecko._make_request nat two_429_then_200 no_latency 1000 "/ping"
                 fresh_state))) = 3%nat
  ∧ snd (CoinGecko._make_request nat always_429 no_latency 50 "/ping" fresh_state)
      = Raise RecursionError
  ∧ CoinGecko.cooldowns
      (CoinGecko.trace
         (fst (CoinGecko._make_request nat always_429 no_latency 50 "/ping"
                 fresh_state))) = 50%nat
  ∧ cooldown_waits
      (CoinGecko.trace
         (fst (CoinGecko._make_request nat always_429 no_latency 50 "/ping"
                 fresh_state))) = 50%nat.
Proof. repeat split; vm_compute; reflexivity. Qed.

(** * Further properties of the code *)

(** ** The apy check and the content of an alert *)




(** X1. The apy check compares the difference in points, without
    dividing.  On binary64 numbers: when both apy values are present and
    nonzero the check returns normally and emits an alert if and only if
    the absolute value of the computed difference [current - previous],
    rounded as the subtraction rounds it, is at least the apy threshold;
    when one of them is absent or zero it emits nothing. *)
Theorem apy_alert_iff_points_reach_threshold now self n prev curr :
  (∀ p c, Binary64.apy prev = Some p → Binary64.apy curr = Some c →
     Binary64.is_zero p = false → Binary64.is_zero c = false →
     ∃ r, Binary64._check_apy_change now self n prev curr = Ok r
          ∧ (is_Some r ↔
             Binary64.ge (Binary64.abs (Binary64.sub c p))
               (Binary64.apy_threshold self) = true))
  ∧ ((Binary64.apy prev = None
      ∨ (∃ p, Binary64.apy prev = Some p ∧ Binary64.is_zero p = true)
      ∨ Binary64.apy curr = None
      ∨ (∃ c, Binary64.apy curr = Some c ∧ Binary64.is_zero c = true)) →
     Binary64._check_apy_change now self n prev curr = Ok None).
Proof.
  split.
  - intros p c Hp Hc Hp0 Hc0.
    rewrite (binary64_check_apy_change_eq _ _ _ _ _ p c) by done.
    destruct (Binary64.ge _ (Binary64.apy_threshold self)); eexists;
      (split; [done|]).
    + split; [done|]. intros _. by eexists.
    + split; [by intros [? [=]] | done].
  - intros H. unfold Binary64._check_apy_change.
    assert (Binary64.truthy (Binary64.apy prev) && Binary64.truthy (Binary64.apy curr)
            = false) as ->; [|done].
    destruct H as [H|[(p & H & Hz)|[H|(c & H & Hz)]]]; rewrite H; simpl.
    + done.
    + by rewrite Hz.
    + apply andb_false_r.
    + rewrite Hz. apply andb_false_r.
Qed.

Lemma apy_alert_iff_points_reach_threshold_witness :
  ∃ r, Binary64._check_apy_change 0%Z (Binary64.manager 5 10 1) "lido"
         (Binary64.snapshot "lido" None None (Some (Binary64.of_Z 3)))
         (Binary64.snapshot "lido" None None (Some (Binary64.decimal 45 10))) = Ok r
       ∧ (is_Some r ↔
          Binary64.ge
            (Binary64.abs (Binary64.sub (Binary64.decimal 45 10) (Binary64.of_Z 3)))
            (Binary64.apy_threshold (Binary64.manager 5 10 1)) = true).
Proof.
  apply (proj1 (apy_alert_iff_points_reach_threshold 0%Z (Binary64.manager 5 10 1) "lido"
                  (Binary64.snapshot "lido" None None (Some (Binary64.of_Z 3)))
                  (Binary64.snapshot "lido" None None (Some (Binary64.decimal 45 10))))
           (Binary64.of_Z 3) (Binary64.decimal 45 10));
    reflexivity.
Defined.



(** ** What [check_alerts] returns and what it leaves alone *)

Lemma length_emitted r : (length (emitted r) ≤ 1)%nat.
Proof. destruct r as [[a|]|e]; simpl; lia. Qed.

Lemma length_alerts_against now self n prev curr :
  (length (alerts_against now self n prev curr) ≤ 3)%nat.
Proof.
  unfold alerts_against. rewrite !length_app.
  pose proof (length_emitted (_check_price_change now self n prev curr)).
  pose proof (length_emitted (_check_tvl_change now self n prev curr)).
  pose proof (length_emitted (_check_apy_change now self n prev curr)).
  lia.
Qed.

(** The checks read the thresholds of the manager, not its baselines. *)
Lemma alerts_against_set_previous_data now f s n prev curr :
  alerts_against now (set_previous_data f s) n prev curr
    = alerts_against now s n prev curr.
Proof. reflexivity. Qed.

Lemma check_protocol_known_eq now d n prev acc s :
  name d = Some n → previous_data s !! n = Some prev →
  check_protocol now d acc s = (s, Ok (acc ++ alerts_against now s n prev d)).
Proof.
  intros Hn Hm. unfold check_protocol, bind, lift, get, getitem_name, ret, alerts_against.
  rewrite Hn. rewrite Hm.
  destruct (_check_price_change_ok now s n prev d) as (r1 & -> & _).
  destruct (_check_tvl_change_ok now s n prev d) as (r2 & -> & _).
  destruct (_check_apy_change_ok now s n prev d) as (r3 & -> & _).
  f_equal. f_equal.
  destruct r1, r2, r3; simpl; rewrite <- ?app_assoc, ?app_nil_r; done.
Qed.

Lemma expected_alerts_cons now s d t :
  expected_alerts now s (d :: t)
    = match name d with
      | Some n =>
          match previous_data s !! n with
          | Some prev => alerts_against now s n prev d
          | None => []
          end
      | None => []
      end ++ expected_alerts now s t.
Proof. reflexivity. Qed.

(** A baseline added for a name that the batch does not contain changes
    nothing for the batch. *)
Lemma expected_alerts_insert now s n d batch :
  n ∉ names batch →
  expected_alerts now (set_previous_data <[n := d]> s) batch
    = expected_alerts now s batch.
Proof.
  induction batch as [|d0 t IH]; intros Hn; [done|].
  rewrite !expected_alerts_cons. destruct (name d0) as [n0|] eqn:Hn0.
  - rewrite (names_cons_Some _ n0) in Hn by done.
    apply not_elem_of_cons in Hn as [Hne Hn].
    rewrite IH by done. f_equal. simpl.
    by rewrite lookup_insert_ne.
  - rewrite names_cons_None in Hn by done. by rewrite IH.
Qed.

(** The first loop on a batch of named entries with pairwise distinct
    names appends the alerts of every entry against the baselines the
    manager had when the loop started. *)
Lemma first_loop_alerts now batch :
  Forall (λ d, is_Some (name d)) batch →
  NoDup (names batch) →
  ∀ acc s,
    snd (for_each batch (check_protocol now) acc s)
      = Ok (acc ++ expected_alerts now s batch).
Proof.
  induction 1 as [|d t [n Hn] Hall IH]; intros Hnd acc s.
  - simpl. by rewrite app_nil_r.
  - rewrite (names_cons_Some _ n) in Hnd by done.
    apply NoDup_cons in Hnd as [Hfresh Hnd].
    rewrite expected_alerts_cons, Hn. simpl. unfold bind.
    destruct (previous_data s !! n) as [prev|] eqn:Hm.
    + rewrite (check_protocol_known_eq now d n prev) by done.
      rewrite IH by done. by rewrite app_assoc.
    + rewrite (check_protocol_fresh now d n) by done.
      rewrite IH by done. by rewrite expected_alerts_insert.
Qed.

(** X3. On an enabled manager and a batch of named entries with pairwise
    distinct names, [check_alerts] returns exactly the alerts of each
    entry against the baseline its protocol had before the call: the
    entries in batch order, for one entry the price alert, then the tvl
    alert, then the apy alert, and nothing for an entry without baseline. *)
Theorem check_alerts_returns_expected_alerts now self batch :
  enabled self = true →
  Forall (λ d, is_Some (name d)) batch →
  NoDup (names batch) →
  snd (check_alerts now batch self) = Ok (expected_alerts now self batch).
Proof.
  intros Hen Hall Hnd.
  pose proof (first_loop_alerts now batch Hall Hnd [] self) as Hfirst.
  unfold check_alerts, bind, get. rewrite Hen. simpl.
  destruct (for_each batch (check_protocol now) [] self) as [s1 r] eqn:Hrun.
  simpl in Hfirst. subst r.
  rewrite second_loop_ok by done. done.
Qed.

Lemma check_alerts_returns_expected_alerts_witness :
  snd (check_alerts 1%Z
         [snapshot "aave" (Some 106%Q) (Some 750000%Q) None;
          snapshot "lido" (Some 2%Q) None None]
         (set_previous_data
            <["aave" := snapshot "aave" (Some 100%Q) (Some 1000000%Q) None]>
            (manager 5 10 1)))
    = Ok (expected_alerts 1%Z
            (set_previous_data
               <["aave" := snapshot "aave" (Some 100%Q) (Some 1000000%Q) None]>
               (manager 5 10 1))
            [snapshot "aave" (Some 106%Q) (Some 750000%Q) None;
             snapshot "lido" (Some 2%Q) None None]).
Proof.
  apply (check_alerts_returns_expected_alerts 1%Z
           (set_previous_data
              <["aave" := snapshot "aave" (Some 100%Q) (Some 1000000%Q) None]>
              (manager 5 10 1))
           [snapshot "aave" (Some 106%Q) (Some 750000%Q) None;
            snapshot "lido" (Some 2%Q) None None]).
  - reflexivity.
  - repeat constructor; by eexists.
  - apply (bool_decide_unpack _). vm_compute. reflexivity.
Defined.

Lemma names_cons_app d t : names (d :: t) = names [d] ++ names t.
Proof. unfold names. simpl. by destruct (name d). Qed.

Lemma protocol_alerts_against now s n prev d :
  Forall (λ a, protocol a = n) (alerts_against now s n prev d).
Proof.
  unfold alerts_against.
  destruct (_check_price_change_ok now s n prev d) as (r1 & -> & H1).
  destruct (_check_tvl_change_ok now s n prev d) as (r2 & -> & H2).
  destruct (_check_apy_change_ok now s n prev d) as (r3 & -> & H3).
  rewrite !Forall_app. repeat split.
  - destruct r1; constructor; auto.
  - destruct r2; constructor; auto.
  - destruct r3; constructor; auto.
Qed.

(** One entry, whatever it is: only the baseline map can change, and only
    by a new entry under the name of the snapshot; at most three alerts are
    appended, all about that name. *)
Lemma check_protocol_general now d acc s :
  ∃ m' r,
    check_protocol now d acc s = (set_previous_data (λ _, m') s, r)
    ∧ previous_data s ⊆ m'
    ∧ (∀ k, k ∉ names [d] → m' !! k = previous_data s !! k)
    ∧ (∀ out, r = Ok out →
       ∃ new, out = acc ++ new ∧ (length new ≤ 3)%nat
              ∧ Forall (λ a, protocol a ∈ names [d]) new).
Proof.
  destruct (name d) as [n|] eqn:Hn.
  - destruct (previous_data s !! n) as [prev|] eqn:Hm.
    + rewrite (check_protocol_known_eq now d n prev) by done.
      exists (previous_data s), (Ok (acc ++ alerts_against now s n prev d)).
      rewrite set_previous_data_same. split; [done|]. split; [done|].
      split; [done|]. intros out [= <-]. eexists. split; [done|].
      split; [apply length_alerts_against|].
      eapply Forall_impl; [apply protocol_alerts_against|].
      intros a ->. rewrite (names_cons_Some _ n) by done. apply elem_of_cons. by left.
    + rewrite (check_protocol_fresh now d n) by done.
      exists (<[n := d]> (previous_data s)), (Ok acc).
      split; [done|]. split; [by apply insert_subseteq|]. split.
      * intros k Hk. rewrite (names_cons_Some _ n) in Hk by done.
        apply not_elem_of_cons in Hk as [Hne _]. by rewrite lookup_insert_ne.
      * intros out [= <-]. exists []. rewrite app_nil_r. split; [done|].
        split; [simpl; lia | constructor].
  - rewrite check_protocol_nameless by done.
    exists (previous_data s), (Raise (KeyError "name")).
    rewrite set_previous_data_same. by repeat split.
Qed.

Lemma first_loop_general now batch : ∀ acc s,
  ∃ m' r,
    for_each batch (check_protocol now) acc s = (set_previous_data (λ _, m') s, r)
    ∧ previous_data s ⊆ m'
    ∧ (∀ k, k ∉ names batch → m' !! k = previous_data s !! k)
    ∧ (∀ out, r = Ok out →
       ∃ new, out = acc ++ new ∧ (length new ≤ 3 * length batch)%nat
              ∧ Forall (λ a, protocol a ∈ names batch) new).
Proof.
  induction batch as [|d t IH]; intros acc s.
  - exists (previous_data s), (Ok acc). simpl. unfold ret.
    rewrite set_previous_data_same. split; [done|]. split; [done|]. split; [done|].
    intros out [= <-]. exists []. rewrite app_nil_r. by repeat split.
  - cbn [for_each]. unfold bind.
    destruct (check_protocol_general now d acc s) as (m1 & r1 & -> & Hsub1 & Hout1 & Hr1).
    destruct r1 as [acc1|e].
    + destruct (IH acc1 (set_previous_data (λ _, m1) s))
        as (m2 & r2 & -> & Hsub2 & Hout2 & Hr2).
      simpl in Hsub2, Hout2.
      exists m2, r2. split; [done|]. split; [by etrans|]. split.
      * intros k Hk. rewrite names_cons_app in Hk.
        apply not_elem_of_app in Hk as [Hk1 Hk2].
        rewrite Hout2 by done. by apply Hout1.
      * intros out ->.
        destruct (Hr1 acc1 eq_refl) as (new1 & -> & Hlen1 & Hin1).
        destruct (Hr2 out eq_refl) as (new2 & -> & Hlen2 & Hin2).
        exists (new1 ++ new2). rewrite app_assoc. split; [done|].
        rewrite length_app. split; [simpl; lia|].
        rewrite names_cons_app. apply Forall_app. split.
        -- eapply Forall_impl; [exact Hin1|]. intros a Ha. apply elem_of_app. by left.
        -- eapply Forall_impl; [exact Hin2|]. intros a Ha. apply elem_of_app. by right.
    + exists m1, (Raise e). split; [done|]. split; [done|]. split.
      * intros k Hk. rewrite names_cons_app in Hk.
        apply not_elem_of_app in Hk as [Hk1 _]. by apply Hout1.
      * by intros out [=].
Qed.

Lemma second_loop_general batch : ∀ s,
  ∃ m' r,
    for_each batch update_previous tt s = (set_previous_data (λ _, m') s, r)
    ∧ (∀ k, is_Some (previous_data s !! k) → is_Some (m' !! k))
    ∧ (∀ k, k ∉ names batch → m' !! k = previous_data s !! k).
Proof.
  induction batch as [|d t IH]; intros s.
  - exists (previous_data s), (Ok tt). simpl. unfold ret.
    rewrite set_previous_data_same. by repeat split.
  - cbn [for_each]. unfold bind, update_previous at 1, bind, lift, getitem_name, modify.
    destruct (name d) as [n|] eqn:Hn.
    + destruct (IH (set_previous_data <[n := d]> s)) as (m2 & r2 & -> & Hsome & Hout).
      simpl in Hsome, Hout.
      exists m2, r2. split; [done|]. split.
      * intros k Hk. apply Hsome. rewrite lookup_insert.
        by case_decide.
      * intros k Hk. rewrite (names_cons_Some _ n) in Hk by done.
        apply not_elem_of_cons in Hk as [Hne Hk].
        rewrite Hout by done. by rewrite lookup_insert_ne.
    + exists (previous_data s), (Raise (KeyError "name")).
      rewrite set_previous_data_same. by repeat split.
Qed.

(** X4. Whenever [check_alerts] returns a list, it holds at most three
    alerts per entry of the batch, and every alert is about the name of an
    entry of the batch. *)
Theorem at_most_three_alerts_per_entry now self batch self' alerts :
  check_alerts now batch self = (self', Ok alerts) →
  (length alerts ≤ 3 * length batch)%nat
  ∧ Forall (λ a, protocol a ∈ names batch) alerts.
Proof.
  unfold check_alerts, bind, get. destruct (enabled self); simpl.
  - destruct (first_loop_general now batch [] self) as (m1 & r1 & -> & _ & _ & Hr1).
    destruct r1 as [out|e]; [|done].
    destruct (Hr1 out eq_refl) as (new & -> & Hlen & Hin). simpl.
    destruct (for_each batch update_previous tt _) as [s2 [[]|e]]; [|done].
    unfold ret. by intros [= _ <-].
  - unfold ret. intros [= _ <-]. split; [simpl; lia | constructor].
Qed.

Lemma at_most_three_alerts_per_entry_witness :
  (length (expected_alerts 1%Z
             (set_previous_data
                <["aave" := snapshot "aave" (Some 100%Q) (Some 1000000%Q) None]>
                (manager 5 10 1))
             [snapshot "aave" (Some 106%Q) (Some 750000%Q) None])
   ≤ 3 * length [snapshot "aave" (Some 106%Q) (Some 750000%Q) None])%nat
  ∧ Forall (λ a, protocol a ∈ names [snapshot "aave" (Some 106%Q) (Some 750000%Q) None])
      (expected_alerts 1%Z
         (set_previous_data
            <["aave" := snapshot "aave" (Some 100%Q) (Some 1000000%Q) None]>
            (manager 5 10 1))
         [snapshot "aave" (Some 106%Q) (Some 750000%Q) None]).
Proof.
  apply (at_most_three_alerts_per_entry 1%Z
           (set_previous_data
              <["aave" := snapshot "aave" (Some 100%Q) (Some 1000000%Q) None]>
              (manager 5 10 1))
           [snapshot "aave" (Some 106%Q) (Some 750000%Q) None]
           (set_previous_data
              (λ m, record_all m [snapshot "aave" (Some 106%Q) (Some 750000%Q) None])
              (set_previous_data
                 <["aave" := snapshot "aave" (Some 100%Q) (Some 1000000%Q) None]>
                 (manager 5 10 1)))).
  vm_compute. reflexivity.
Defined.

(** X5. Whatever the batch and whether or not the call raises,
    [check_alerts] changes nothing of the manager but its baseline map;
    there it leaves the baseline of every protocol that is not named in the
    batch as it was, and it never removes a baseline. *)
Theorem check_alerts_changes_only_batch_baselines now self batch :
  ∃ m',
    fst (check_alerts now batch self) = set_previous_data (λ _, m') self
    ∧ (∀ k, k ∉ names batch → m' !! k = previous_data self !! k)
    ∧ (∀ k, is_Some (previous_data self !! k) → is_Some (m' !! k)).
Proof.
  unfold check_alerts, bind, get. destruct (enabled self); simpl.
  - destruct (first_loop_general now batch [] self) as (m1 & r1 & -> & Hsub & Hout1 & _).
    destruct r1 as [out|e].
    + destruct (second_loop_general batch (set_previous_data (λ _, m1) self))
        as (m2 & r2 & -> & Hsome & Hout2).
      simpl in Hsome, Hout2.
      exists m2. split; [by destruct r2|]. split.
      * intros k Hk. rewrite Hout2 by done. by apply Hout1.
      * intros k [x Hk]. apply Hsome. exists x.
        by apply (lookup_weaken _ _ _ _ Hk Hsub).
    + exists m1. split; [done|]. split; [done|].
      intros k [x Hk]. exists x. by apply (lookup_weaken _ _ _ _ Hk Hsub).
  - exists (previous_data self). rewrite set_previous_data_same. by repeat split.
Qed.

(** ** The channels do not disturb each other *)

(** The email channel: one mail with the whole batch when the credentials
    are complete and the transport does not fail, no mail otherwise; it
    makes no webhook call. *)
Lemma _send_email_alerts_effect now smtp_failure self alerts w :
  ∃ w',
    _send_email_alerts now smtp_failure self alerts w
      = (w', Ok (nonempty (email_to self) && nonempty (email_from self)
                 && nonempty (smtp_username self) && nonempty (smtp_password self)
                 && match smtp_failure (make_mail now self alerts) with
                    | None => true
                    | Some _ => false
                    end))
    ∧ webhook_posts w' = webhook_posts w
    ∧ smtp_sent w'
        = smtp_sent w
          ++ (if nonempty (email_to self) && nonempty (email_from self)
                 && nonempty (smtp_username self) && nonempty (smtp_password self)
                 && match smtp_failure (make_mail now self alerts) with
                    | None => true
                    | Some _ => false
                    end
              then [make_mail now self alerts] else []).
Proof.
  unfold _send_email_alerts, try_except.
  destruct (nonempty (email_to self) && nonempty (email_from self)
            && nonempty (smtp_username self) && nonempty (smtp_password self)); simpl.
  - unfold bind, smtp_session.
    destruct (smtp_failure (make_mail now self alerts)); simpl;
      eexists; (split; [done|]); simpl; by rewrite ?app_nil_r.
  - eexists. split; [done|]. simpl. by rewrite app_nil_r.
Qed.

(** X6. Whether [send_alerts] sends a mail does not depend on the console
    or on the webhook: for a non-empty batch it sends exactly one mail,
    holding the whole batch, when the email channel is enabled with
    complete credentials and the transport does not fail, and no mail
    otherwise, whatever the webhook answers.  When the webhook channel is
    not enabled it makes no webhook call. *)
Theorem channels_are_independent now webhook smtp_failure self alerts w :
  smtp_sent (fst (send_alerts now webhook smtp_failure self alerts w))
    = smtp_sent w
      ++ match alerts with
         | [] => []
         | _ => if email_delivers now smtp_failure self alerts
                then [make_mail now self alerts] else []
         end
  ∧ (webhook_enabled self = false →
     webhook_posts (fst (send_alerts now webhook smtp_failure self alerts w))
       = webhook_posts w).
Proof.
  destruct alerts as [|a t]; [simpl; by rewrite app_nil_r|].
  unfold send_alerts. generalize (a :: t). clear a t. intros alerts.
  unfold webhook_enabled, email_delivers, email_enabled.
  destruct (default true (cfg_console (alerts_config self)));
    destruct (default false (cfg_discord_webhook (alerts_config self)));
    destruct (nonempty (discord_webhook_url self));
    destruct (default false (cfg_email (alerts_config self)));
    destruct (nonempty (email_to self)) eqn:Hto;
    unfold bind, ret; cbn [andb];
    repeat match goal with
      | |- context [_send_console_alerts ?al ?w0] =>
          let Hp := fresh "Hp" in
          let Hs := fresh "Hs" in
          destruct (_send_console_alerts_result al w0) as (? & -> & Hp & Hs)
      | |- context [_send_discord_alerts ?wh ?s ?al ?w0] =>
          let Hs := fresh "Hs" in
          destruct (_send_discord_alerts_result wh s al w0) as (? & -> & Hs)
      | |- context [_send_email_alerts ?t ?f ?s ?al ?w0] =>
          let Hp := fresh "Hp" in
          let Hs := fresh "Hs" in
          destruct (_send_email_alerts_effect t f s al w0) as (? & -> & Hp & Hs)
      end;
    cbn [fst snd] in *; rewrite ?Hto in *; cbn [andb] in *;
    rewrite ?app_nil_r in *;
    (split; [|intros ?]); congruence.
Qed.

Lemma channels_are_independent_witness :
  webhook_posts (fst (send_alerts 0%Z every_call_fails smtp_works (manager 5 10 1)
                        [sample_price_alert] empty_world))
    = webhook_posts empty_world.
Proof.
  apply (proj2 (channels_are_independent 0%Z every_call_fails smtp_works
                  (manager 5 10 1) [sample_price_alert] empty_world)).
  reflexivity.
Defined.

(** ** What the fetch layers let escape, and how they space requests *)

Section FetchLayers.

Variable Json : Type.
Variable upstream : nat → string → CoinGecko.GetOutcome Json.
Variable latency : nat → Q.
Variable endpoint : string.


Lemma lt_true a b : lt a b = true → (a < b)%Q.
Proof.
  unfold lt. intros H. apply Qnot_le_lt. intros Hle.
  apply Qle_bool_iff in Hle. by rewrite Hle in H.
Qed.

Lemma lt_false a b : lt a b = false → (b <= a)%Q.
Proof.
  unfold lt. intros H. apply Qle_bool_iff. by destruct (Qle_bool b a).
Qed.

(** The quantities of a DefiLlama state that the spacing of requests is
    about, as variables. *)
Ltac clock_atoms s :=
  generalize (DefiLlama.clock s),
             (DefiLlama.last_request_time (DefiLlama.self s)),
             (DefiLlama.min_request_interval (DefiLlama.self s)),
             (latency (DefiLlama.requests_sent s));
  intros.

(** One call of DefiLlama's [_make_request], step by step. *)
Lemma defillama_request_run s :
  ∃ s',
    DefiLlama._make_request Json upstream latency endpoint s
      = (s', Ok (final_answer
                   (upstream (DefiLlama.requests_sent s)
                      (DefiLlama.base_url (DefiLlama.self s) +:+ endpoint))))
    ∧ DefiLlama.requests_sent s' = S (DefiLlama.requests_sent s)
    ∧ CoinGecko.gets (DefiLlama.trace s') = S (CoinGecko.gets (DefiLlama.trace s))
    ∧ CoinGecko.cooldowns (DefiLlama.trace s')
        = CoinGecko.cooldowns (DefiLlama.trace s)
    ∧ (DefiLlama.last_request_time (DefiLlama.self s)
         + DefiLlama.min_request_interval (DefiLlama.self s)
         + latency (DefiLlama.requests_sent s) <= DefiLlama.clock s')%Q
    ∧ (∀ c body,
         upstream (DefiLlama.requests_sent s)
           (DefiLlama.base_url (DefiLlama.self s) +:+ endpoint)
           = CoinGecko.GetResponse c body →
         DefiLlama.last_request_time (DefiLlama.self s') = DefiLlama.clock s').
Proof.
  unfold DefiLlama._make_request.
  unfold bind at 1, DefiLlama.time_time at 1. unfold bind at 1, get at 1. unfold bind at 1.
  destruct (lt _ _) eqn:Hlt; [apply lt_true in Hlt | apply lt_false in Hlt].
  - unfold DefiLlama.time_sleep at 1, modify at 1.
    unfold DefiLlama.try_except_RequestException at 1.
    unfold bind at 1, DefiLlama.session_get at 1.
    cbn [DefiLlama.self DefiLlama.requests_sent DefiLlama.base_url].
    destruct (upstream _ _) as [c body|].
    + unfold bind at 1, DefiLlama.time_time at 1.
      unfold bind at 1, DefiLlama.set_last_request_time, modify at 1.
      cbn [fst snd]. unfold bind at 1, lift. cbn [final_answer].
      destruct (raise_for_status c) as [[]|e] eqn:Hc.
      * unfold ret. eexists. split; [reflexivity|].
        cbn [DefiLlama.trace DefiLlama.requests_sent DefiLlama.clock DefiLlama.self
             DefiLlama.last_request_time].
        rewrite !cooldowns_snoc, !gets_snoc. simpl CoinGecko.is_get.
        simpl CoinGecko.is_cooldown. simpl Nat.b2n.
        repeat split; try lia; try done. revert Hlt. clock_atoms s. lra.
      * assert (CoinGecko.is_RequestException e = true) as ->.
        { unfold raise_for_status in Hc.
          destruct ((400 <=? c)%Z && (c <? 600)%Z); by inversion Hc. }
        unfold bind, DefiLlama.log, modify, ret. eexists. split; [reflexivity|].
        cbn [DefiLlama.trace DefiLlama.requests_sent DefiLlama.clock DefiLlama.self
             DefiLlama.last_request_time].
        rewrite !cooldowns_snoc, !gets_snoc. simpl CoinGecko.is_get.
        simpl CoinGecko.is_cooldown. simpl Nat.b2n.
        repeat split; try lia; try done. revert Hlt. clock_atoms s. lra.
    + cbn [CoinGecko.is_RequestException final_answer].
      unfold bind, DefiLlama.log, modify, ret. eexists. split; [reflexivity|].
      cbn [DefiLlama.trace DefiLlama.requests_sent DefiLlama.clock DefiLlama.self
           DefiLlama.last_request_time].
      rewrite !cooldowns_snoc, !gets_snoc. simpl CoinGecko.is_get.
      simpl CoinGecko.is_cooldown. simpl Nat.b2n.
      repeat split; try lia; try done. revert Hlt. clock_atoms s. lra.
  - unfold ret at 1.
    unfold DefiLlama.try_except_RequestException at 1.
    unfold bind at 1, DefiLlama.session_get at 1.
    cbn [DefiLlama.self DefiLlama.requests_sent DefiLlama.base_url].
    destruct (upstream _ _) as [c body|].
    + unfold bind at 1, DefiLlama.time_time at 1.
      unfold bind at 1, DefiLlama.set_last_request_time, modify at 1.
      cbn [fst snd]. unfold bind at 1, lift. cbn [final_answer].
      destruct (raise_for_status c) as [[]|e] eqn:Hc.
      * unfold ret. eexists. split; [reflexivity|].
        cbn [DefiLlama.trace DefiLlama.requests_sent DefiLlama.clock DefiLlama.self
             DefiLlama.last_request_time].
        rewrite !cooldowns_snoc, !gets_snoc. simpl CoinGecko.is_get.
        simpl CoinGecko.is_cooldown. simpl Nat.b2n.
        repeat split; try lia; try done. revert Hlt. clock_atoms s. lra.
      * assert (CoinGecko.is_RequestException e = true) as ->.
        { unfold raise_for_status in Hc.
          destruct ((400 <=? c)%Z && (c <? 600)%Z); by inversion Hc. }
        unfold bind, DefiLlama.log, modify, ret. eexists. split; [reflexivity|].
        cbn [DefiLlama.trace DefiLlama.requests_sent DefiLlama.clock DefiLlama.self
             DefiLlama.last_request_time].
        rewrite !cooldowns_snoc, !gets_snoc. simpl CoinGecko.is_get.
        simpl CoinGecko.is_cooldown. simpl Nat.b2n.
        repeat split; try lia; try done. revert Hlt. clock_atoms s. lra.
    + cbn [CoinGecko.is_RequestException final_answer].
      unfold bind, DefiLlama.log, modify, ret. eexists. split; [reflexivity|].
      cbn [DefiLlama.trace DefiLlama.requests_sent DefiLlama.clock DefiLlama.self
           DefiLlama.last_request_time].
      rewrite !cooldowns_snoc, !gets_snoc. simpl CoinGecko.is_get.
      simpl CoinGecko.is_cooldown. simpl Nat.b2n.
      repeat split; try lia; try done. revert Hlt. clock_atoms s. lra.
Qed.


(** One call of CoinGecko's [_make_request] whose response is not 429:
    the clock when the call returns. *)
Lemma coingecko_request_clock f s :
  is_429 (upstream (CoinGecko.requests_sent s)
            (CoinGecko.base_url (CoinGecko.self s) +:+ endpoint)) = false →
  (CoinGecko.last_request_time (CoinGecko.self s)
     + CoinGecko.min_request_interval (CoinGecko.self s)
     + latency (CoinGecko.requests_sent s)
   <= CoinGecko.clock
        (fst (CoinGecko._make_request Json upstream latency (S f) endpoint s)))%Q.
Proof.
  intros H. cbn [CoinGecko._make_request].
  unfold bind at 1, CoinGecko.time_time at 1. unfold bind at 1, get at 1. unfold bind at 1.
  destruct (lt _ _) eqn:Hlt; [apply lt_true in Hlt | apply lt_false in Hlt].
  - unfold CoinGecko.time_sleep at 1, modify at 1.
    unfold CoinGecko.try_except_RequestException at 1.
    unfold bind at 1, CoinGecko.session_get at 1.
    cbn [CoinGecko.self CoinGecko.requests_sent CoinGecko.base_url].
    destruct (upstream _ _) as [c body|].
    + unfold bind at 1, CoinGecko.time_time at 1.
      unfold bind at 1, CoinGecko.set_last_request_time, modify at 1.
      cbn [fst snd]. cbn [is_429] in H. rewrite H.
      unfold bind at 1, lift.
      destruct (raise_for_status c) as [[]|e] eqn:Hc.
      * unfold ret. cbn [fst CoinGecko.clock]. revert Hlt.
        generalize (CoinGecko.clock s), (CoinGecko.last_request_time (CoinGecko.self s)),
          (CoinGecko.min_request_interval (CoinGecko.self s)),
          (latency (CoinGecko.requests_sent s)).
        intros. lra.
      * assert (CoinGecko.is_RequestException e = true) as ->.
        { unfold raise_for_status in Hc.
          destruct ((400 <=? c)%Z && (c <? 600)%Z); by inversion Hc. }
        unfold bind, CoinGecko.log, modify, ret. cbn [fst CoinGecko.clock]. revert Hlt.
        generalize (CoinGecko.clock s), (CoinGecko.last_request_time (CoinGecko.self s)),
          (CoinGecko.min_request_interval (CoinGecko.self s)),
          (latency (CoinGecko.requests_sent s)).
        intros. lra.
    + cbn [CoinGecko.is_RequestException].
      unfold bind, CoinGecko.log, modify, ret. cbn [fst CoinGecko.clock]. revert Hlt.
      generalize (CoinGecko.clock s), (CoinGecko.last_request_time (CoinGecko.self s)),
        (CoinGecko.min_request_interval (CoinGecko.self s)),
        (latency (CoinGecko.requests_sent s)).
      intros. lra.
  - unfold ret at 1.
    unfold CoinGecko.try_except_RequestException at 1.
    unfold bind at 1, CoinGecko.session_get at 1.
    cbn [CoinGecko.self CoinGecko.requests_sent CoinGecko.base_url].
    destruct (upstream _ _) as [c body|].
    + unfold bind at 1, CoinGecko.time_time at 1.
      unfold bind at 1, CoinGecko.set_last_request_time, modify at 1.
      cbn [fst snd]. cbn [is_429] in H. rewrite H.
      unfold bind at 1, lift.
      destruct (raise_for_status c) as [[]|e] eqn:Hc.
      * unfold ret. cbn [fst CoinGecko.clock]. revert Hlt.
        generalize (CoinGecko.clock s), (CoinGecko.last_request_time (CoinGecko.self s)),
          (CoinGecko.min_request_interval (CoinGecko.self s)),
          (latency (CoinGecko.requests_sent s)).
        intros. lra.
      * assert (CoinGecko.is_RequestException e = true) as ->.
        { unfold raise_for_status in Hc.
          destruct ((400 <=? c)%Z && (c <? 600)%Z); by inversion Hc. }
        unfold bind, CoinGecko.log, modify, ret. cbn [fst CoinGecko.clock]. revert Hlt.
        generalize (CoinGecko.clock s), (CoinGecko.last_request_time (CoinGecko.self s)),
          (CoinGecko.min_request_interval (CoinGecko.self s)),
          (latency (CoinGecko.requests_sent s)).
        intros. lra.
    + cbn [CoinGecko.is_RequestException].
      unfold bind, CoinGecko.log, modify, ret. cbn [fst CoinGecko.clock]. revert Hlt.
      generalize (CoinGecko.clock s), (CoinGecko.last_request_time (CoinGecko.self s)),
        (CoinGecko.min_request_interval (CoinGecko.self s)),
        (latency (CoinGecko.requests_sent s)).
      intros. lra.
Qed.

(** X9. Both clients space their requests: a request is sent no earlier
    than [min_request_interval] after the time recorded for the previous
    response, so the call returns no earlier than that time plus the
    interval plus the time the request takes.  DefiLlama's client records
    the time of every response, so that the next call is spaced from it.
    (For CoinGecko's client the statement is about a call whose response is
    not 429.) *)
Theorem requests_are_spaced s (f : nat) (cg : CoinGecko.State) :
  (∃ s',
     fst (DefiLlama._make_request Json upstream latency endpoint s) = s'
     ∧ (DefiLlama.last_request_time (DefiLlama.self s)
          + DefiLlama.min_request_interval (DefiLlama.self s)
          + latency (DefiLlama.requests_sent s) <= DefiLlama.clock s')%Q
     ∧ (∀ c body,
          upstream (DefiLlama.requests_sent s)
            (DefiLlama.base_url (DefiLlama.self s) +:+ endpoint)
            = CoinGecko.GetResponse c body →
          DefiLlama.last_request_time (DefiLlama.self s') = DefiLlama.clock s'))
  ∧ (is_429 (upstream (CoinGecko.requests_sent cg)
               (CoinGecko.base_url (CoinGecko.self cg) +:+ endpoint)) = false →
     (CoinGecko.last_request_time (CoinGecko.self cg)
        + CoinGecko.min_request_interval (CoinGecko.self cg)
        + latency (CoinGecko.requests_sent cg)
      <= CoinGecko.clock
           (fst (CoinGecko._make_request Json upstream latency (S f) endpoint cg)))%Q).
Proof.
  split.
  - destruct (defillama_request_run s) as (s' & Hrun & _ & _ & _ & Hclock & Hlast).
    exists s'. rewrite Hrun. by repeat split.
  - apply coingecko_request_clock.
Qed.

End FetchLayers.


Lemma requests_are_spaced_witness :
  (CoinGecko.last_request_time (CoinGecko.self fresh_state)
     + CoinGecko.min_request_interval (CoinGecko.self fresh_state)
     + no_latency (CoinGecko.requests_sent fresh_state)
   <= CoinGecko.clock
        (fst (CoinGecko._make_request nat healthy_upstream no_latency 1 "/ping"
                fresh_state)))%Q.
Proof.
  apply (proj2 (requests_are_spaced nat healthy_upstream no_latency "/ping"
                  llama_state 0 fresh_state)).
  reflexivity.
Defined.

(** ** Prices and yields *)

(** X10. [get_exchange_rate] answers with the number the upstream gives
    for the pair: when the first response that is not 429 comes after k
    rate-limit responses (within the recursion limit) and is a success with
    body b, the rate is [b[from][to]], and [None] when the coin or the
    currency is missing from b; when that response is an error or a network
    failure the rate is [None].  No exception escapes. *)
Theorem exchange_rate_is_the_upstream_price upstream latency frames
    from_currency to_currency s k :
  (k < frames)%nat →
  (∀ i, (i < k)%nat →
     is_429 (upstream (CoinGecko.requests_sent s + i)%nat
               (CoinGecko.base_url (CoinGecko.self s)
                +:+ price_endpoint from_currency to_currency)) = true) →
  is_429 (upstream (CoinGecko.requests_sent s + k)%nat
            (CoinGecko.base_url (CoinGecko.self s)
             +:+ price_endpoint from_currency to_currency)) = false →
  snd (CoinGecko.get_exchange_rate upstream latency frames from_currency to_currency s)
    = Ok (match final_answer
                  (upstream (CoinGecko.requests_sent s + k)%nat
                     (CoinGecko.base_url (CoinGecko.self s)
                      +:+ price_endpoint from_currency to_currency)) with
          | Some body =>
              match body !! from_currency with
              | Some entry => entry !! to_currency
              | None => None
              end
          | None => None
          end).
Proof.
  intros Hk H429 Hlast.
  destruct (request_after_429s _ upstream latency
              (price_endpoint from_currency to_currency) k frames s Hk H429 Hlast)
    as (s' & Hrun & _).
  unfold CoinGecko.get_exchange_rate, CoinGecko.get_token_price, bind.
  fold (price_endpoint from_currency to_currency). rewrite Hrun.
  destruct (final_answer _) as [body|]; [|done].
  destruct (bool_decide (body = ∅)) eqn:Hempty.
  - apply bool_decide_eq_true in Hempty as ->. simpl. by rewrite lookup_empty.
  - simpl. destruct (body !! from_currency) as [entry|] eqn:Hentry.
    + rewrite bool_decide_eq_true_2 by eauto. done.
    + rewrite bool_decide_eq_false_2; [done|]. by intros [? [=]].
Qed.

Lemma exchange_rate_is_the_upstream_price_witness :
  snd (CoinGecko.get_exchange_rate price_upstream no_latency 1000 "aave" "usd" fresh_state)
    = Ok (match final_answer
                  (price_upstream (CoinGecko.requests_sent fresh_state + 1)%nat
                     (CoinGecko.base_url (CoinGecko.self fresh_state)
                      +:+ price_endpoint "aave" "usd")) with
          | Some body =>
              match body !! "aave" with
              | Some entry => entry !! "usd"
              | None => None
              end
          | None => None
          end).
Proof.
  apply (exchange_rate_is_the_upstream_price price_upstream no_latency 1000
           "aave" "usd" fresh_state 1).
  - lia.
  - intros [|i] Hi; [reflexivity | lia].
  - reflexivity.
Defined.

(** X11. [get_protocol_yields] sends one request and answers with the pools
    of the response whose project is the slug, in the order of the
    response.  It never answers with an empty list: when the request fails,
    when the response has no ['data'], or when no pool belongs to the
    protocol, the answer is [None]. *)
Theorem protocol_yields_are_the_pools_of_the_slug upstream latency slug s :
  ∃ s' r,
    DefiLlama.get_protocol_yields upstream latency slug s = (s', Ok r)
    ∧ CoinGecko.gets (DefiLlama.trace s') = S (CoinGecko.gets (DefiLlama.trace s))
    ∧ match r with
      | Some pools =>
          pools ≠ []
          ∧ ∃ data,
              final_answer
                (upstream (DefiLlama.requests_sent s)
                   (DefiLlama.base_url (DefiLlama.self s) +:+ "/yields"))
                = Some (Some data)
              ∧ pools = filter (λ pool, DefiLlama.project pool = Some slug) data
      | None =>
          ∀ data,
            final_answer
              (upstream (DefiLlama.requests_sent s)
                 (DefiLlama.base_url (DefiLlama.self s) +:+ "/yields"))
              = Some (Some data) →
            filter (λ pool, DefiLlama.project pool = Some slug) data = []
      end.
Proof.
  destruct (defillama_request_run _ upstream latency "/yields" s)
    as (s' & Hrun & _ & Hg & _).
  unfold DefiLlama.get_protocol_yields, bind. rewrite Hrun.
  destruct (final_answer _) as [[data|]|].
  - destruct (filter _ data) as [|pool pools] eqn:Hf.
    + exists s', None. split; [done|]. split; [done|]. by intros ? [= <-].
    + exists s', (Some (pool :: pools)). split; [done|]. split; [done|].
      split; [done|]. by exists data.
  - exists s', None. by repeat split.
  - exists s', None. by repeat split.
Qed.

(** ** Formatting numbers *)

(** X12. [_format_number] chooses the suffix by the size of the number:
    a number below 1000, so every negative number, is formatted as it is,
    without suffix; from 1000 on the number is divided by the factor of
    its suffix (B 10^9, M 10^6, K 10^3) before it is formatted, and the
    factor chosen is the largest of the three that is not above the
    number: it is at most the number, and for K and M the number is below
    1000 times the factor.  Only a missing number gives N/A. *)
Theorem format_number_scales_by_suffix (num : Q) :
  _format_number None = NA
  ∧ ((num < 1000)%Q → _format_number (Some num) = Plain num)
  ∧ ((1000 <= num)%Q →
     ∃ divisor suffix,
       _format_number (Some num) = Scaled num divisor suffix
       ∧ (suffix = "B" ∨ suffix = "M" ∨ suffix = "K")
       ∧ divisor = scale suffix
       ∧ (divisor <= num)%Q
       ∧ (suffix = "K" ∨ suffix = "M" → (num < 1000 * divisor)%Q)).
Proof.
  split; [done|].
  unfold _format_number.
  assert (E9 : (1e9 == 1000000000)%Q) by reflexivity.
  assert (E6 : (1e6 == 1000000)%Q) by reflexivity.
  assert (E3 : (1e3 == 1000)%Q) by reflexivity.
  destruct (ge num 1e9) eqn:H9; [apply ge_true in H9|apply ge_false in H9];
    rewrite E9 in H9.
  { split; [intros H; exfalso; lra|]. intros _.
    exists 1e9%Q, "B". split; [done|]. split; [by left|]. split; [done|].
    split; [by rewrite E9|]. by intros [[=]|[=]]. }
  destruct (ge num 1e6) eqn:H6; [apply ge_true in H6|apply ge_false in H6];
    rewrite E6 in H6.
  { split; [intros H; exfalso; lra|]. intros _.
    exists 1e6%Q, "M". split; [done|]. split; [by right; left|]. split; [done|].
    split; [by rewrite E6|]. intros _. rewrite E6. lra. }
  destruct (ge num 1e3) eqn:H3; [apply ge_true in H3|apply ge_false in H3];
    rewrite E3 in H3.
  { split; [intros H; exfalso; lra|]. intros _.
    exists 1e3%Q, "K". split; [done|]. split; [by right; right|]. split; [done|].
    split; [by rewrite E3|]. intros _. rewrite E3. lra. }
  split; [done|]. intros H. exfalso. lra.
Qed.

Lemma format_number_scales_by_suffix_witness :
  _format_number (Some 999%Q) = Plain 999
  ∧ ∃ divisor suffix,
      _format_number (Some 1234567%Q) = Scaled 1234567 divisor suffix
      ∧ (suffix = "B" ∨ suffix = "M" ∨ suffix = "K")
      ∧ divisor = scale suffix
      ∧ (divisor <= 1234567)%Q
      ∧ (suffix = "K" ∨ suffix = "M" → (1234567 < 1000 * divisor)%Q).
Proof.
  split.
  - apply (proj1 (proj2 (format_number_scales_by_suffix 999%Q))). reflexivity.
  - apply (proj2 (proj2 (format_number_scales_by_suffix 1234567%Q))). discriminate.
Defined.

(** ** Building the clients *)

(** X13. Both clients divide 60 by the configured rate limit when they
    are built (30 per minute by default for CoinGecko, 100 for DefiLlama):
    building a client with a rate limit of 0 raises [ZeroDivisionError];
    with any other rate limit, or none, it succeeds, and the client holds
    the configured or default rate limit and base URL and has made no
    request yet. *)
Theorem client_init_raises_on_zero_rate_limit
    (cfg_base_url cfg_api_key : option string) (cfg_rate_limit : option Q) :
  ((∃ r, cfg_rate_limit = Some r ∧ (r == 0)%Q) →
     CoinGecko.__init__ cfg_base_url cfg_api_key cfg_rate_limit = Raise ZeroDivisionError
     ∧ DefiLlama.__init__ cfg_base_url cfg_rate_limit = Raise ZeroDivisionError)
  ∧ ((∀ r, cfg_rate_limit = Some r → ¬ (r == 0)%Q) →
     (∃ c, CoinGecko.__init__ cfg_base_url cfg_api_key cfg_rate_limit = Ok c
           ∧ CoinGecko.rate_limit c = default 30%Q cfg_rate_limit
           ∧ CoinGecko.base_url c
             = default "https://api.coingecko.com/api/v3" cfg_base_url
           ∧ CoinGecko.api_key c = default "" cfg_api_key
           ∧ CoinGecko.last_request_time c = 0%Q)
     ∧ (∃ c, DefiLlama.__init__ cfg_base_url cfg_rate_limit = Ok c
             ∧ DefiLlama.rate_limit c = default 100%Q cfg_rate_limit
             ∧ DefiLlama.base_url c = default "https://api.llama.fi" cfg_base_url
             ∧ DefiLlama.last_request_time c = 0%Q)).
Proof.
  split.
  - intros (r & -> & Hr). unfold CoinGecko.__init__, DefiLlama.__init__, truediv.
    simpl default. apply Qeq_bool_iff in Hr. by rewrite Hr.
  - intros H.
    assert (Hcg : ¬ (default 30%Q cfg_rate_limit == 0)%Q).
    { destruct cfg_rate_limit as [r|]; simpl; [by apply H | discriminate]. }
    assert (Hdl : ¬ (default 100%Q cfg_rate_limit == 0)%Q).
    { destruct cfg_rate_limit as [r|]; simpl; [by apply H | discriminate]. }
    unfold CoinGecko.__init__, DefiLlama.__init__.
    rewrite !truediv_nonzero by done. split; eexists; by repeat split.
Qed.

Lemma client_init_raises_on_zero_rate_limit_witness :
  (CoinGecko.__init__ None None (Some 0%Q) = Raise ZeroDivisionError
   ∧ DefiLlama.__init__ None (Some 0%Q) = Raise ZeroDivisionError)
  ∧ (∃ c, CoinGecko.__init__ None None (Some 50%Q) = Ok c
          ∧ CoinGecko.rate_limit c = default 30%Q (Some 50%Q)
          ∧ CoinGecko.base_url c = default "https://api.coingecko.com/api/v3" None
          ∧ CoinGecko.api_key c = default "" None
          ∧ CoinGecko.last_request_time c = 0%Q).
Proof.
  split.
  - apply (proj1 (client_init_raises_on_zero_rate_limit None None (Some 0%Q))).
    exists 0%Q. split; reflexivity.
  - apply (proj2 (client_init_raises_on_zero_rate_limit None None (Some 50%Q))).
    intros r [= <-]. discriminate.
Defined.

(** ** A name that occurs twice in a batch *)

(** X14. The first loop of [check_alerts] records a first-seen snapshot at
    once, so a second entry with the same name in the same batch is
    compared with it: for a name without baseline, a batch of two entries
    with that name returns the alerts of the second entry against the
    first, and the second entry is the baseline after the call. *)
Theorem duplicate_name_is_compared_within_batch now self d1 d2 n :
  enabled self = true →
  name d1 = Some n → name d2 = Some n →
  previous_data self !! n = None →
  snd (check_alerts now [d1; d2] self) = Ok (alerts_against now self n d1 d2)
  ∧ previous_data (fst (check_alerts now [d1; d2] self)) !! n = Some d2.
Proof.
  intros Hen H1 H2 Hfresh.
  assert (Hfirst : for_each [d1; d2] (check_protocol now) [] self
                   = (set_previous_data <[n := d1]> self,
                      Ok (alerts_against now self n d1 d2))).
  { cbn [for_each]. unfold bind.
    rewrite (check_protocol_fresh now d1 n) by done.
    rewrite (check_protocol_known_eq now d2 n d1);
      [done | done | by apply lookup_insert_eq]. }
  unfold check_alerts, bind, get. rewrite Hen. cbn [negb]. rewrite Hfirst.
  rewrite second_loop_ok by (repeat constructor; by eexists).
  unfold ret. cbn [fst snd]. split; [done|].
  cbn [previous_data set_previous_data]. rewrite !record_all_cons, H1, H2.
  apply lookup_insert_eq.
Qed.

Lemma duplicate_name_is_compared_within_batch_witness :
  snd (check_alerts 0%Z
         [snapshot "aave" (Some 100%Q) None None; snapshot "aave" (Some 200%Q) None None]
         (manager 5 10 1))
    = Ok (alerts_against 0%Z (manager 5 10 1) "aave"
            (snapshot "aave" (Some 100%Q) None None)
            (snapshot "aave" (Some 200%Q) None None))
  ∧ previous_data
      (fst (check_alerts 0%Z
              [snapshot "aave" (Some 100%Q) None None;
               snapshot "aave" (Some 200%Q) None None]
              (manager 5 10 1))) !! "aave"
    = Some (snapshot "aave" (Some 200%Q) None None).
Proof.
  apply (duplicate_name_is_compared_within_batch 0%Z (manager 5 10 1)
           (snapshot "aave" (Some 100%Q) None None)
           (snapshot "aave" (Some 200%Q) None None) "aave");
    reflexivity.
Defined.
